(** * Monty Hall simulator (src/index.tsx): model and verified properties

    The React component [Simulator] and the configuration form of [App] are
    embedded as pure functions over explicit state:

    - JS numbers that count things ([wins], [losses], [total], ...) are [Z];
      array indices, array lengths and loop counters are [nat];
    - arrays are lists, read with stdpp's [!!] ([None] is JS [undefined]);
    - every call of [Math.random()] consumes one [Sample] of an explicit
      random source, threaded through the code that draws from it;
    - the React state cells of the manual game are the fields of
      [ManualState], those of the automatic simulator the fields of [SimUi];
    - an uncaught [TypeError] or [RangeError] and a loop that is still
      running when the given random draws are used up are explicit results
      ([Throws], [Pending]);
    - the progress value is the double the code computes, a primitive
      binary64 float. *)

From Stdlib Require Import ZArith Floats Ascii String Lia.
From stdpp Require Import base list pretty.

#[local] Open Scope string_scope.
#[local] Open Scope nat_scope.

(** ** Randomness *)

(** One value returned by [Math.random()]: the number
    [num / (num + gap + 1)], which lies in [0, 1). *)
Record Sample : Type := mkSample { num : nat; gap : nat }.

(** [Math.floor(Math.random() * n)] for the sample [u]. *)
Definition randomIndex (u : Sample) (n : nat) : nat :=
  (num u * n) / (num u + gap u + 1).

(** A sample whose scaled floor is [k] whenever [k < n]. *)
Definition sampleFor (k n : nat) : Sample := mkSample k (n - S k).

(** ** Results of code that may throw or keep looping *)

Inductive outcome (A : Type) : Type :=
| Returns (a : A)
| Throws            (* an uncaught TypeError or RangeError *)
| Pending.          (* the supplied random draws ran out before the end *)
Arguments Returns {A} a.
Arguments Throws {A}.
Arguments Pending {A}.

#[global] Instance outcome_ret : MRet outcome := fun A a => Returns a.
#[global] Instance outcome_bind : MBind outcome := fun A B k m =>
  match m with
  | Returns a => k a
  | Throws => Throws
  | Pending => Pending
  end.
#[global] Instance outcome_fmap : FMap outcome := fun A B f m =>
  match m with
  | Returns a => Returns (f a)
  | Throws => Throws
  | Pending => Pending
  end.

(** ** Configuration form ([App.handleApplyConfig]) *)

Module Config.

(** The messages [validate] returns; the empty string means "valid". *)
Definition NotANumber : string := "유효한 숫자를 입력하세요.".
Definition TooFewDoors : string := "문의 개수는 3개 이상이어야 합니다.".
Definition TooFewPrizes : string := "상품의 개수는 1개 이상이어야 합니다.".
Definition TooManyPrizes : string := "상품의 개수는 문 개수보다 적어야 합니다.".
Definition InsufficientSwitchChoice : string :=
  "바꿀 수 있는 선택지를 남기려면, (문의 개수 - 상품의 개수)는 2 이상이어야 합니다.".

(** The value of [parseInt(text, 10)]: an integer, or [None] for [NaN]. *)
Definition parsed : Type := option Z.

Definition isNaN (x : parsed) : bool :=
  match x with None => true | Some _ => false end.

(** Comparisons and subtraction on parsed numbers; every comparison with
    [NaN] is false, as in JS. *)
Definition ltb (x y : parsed) : bool :=
  match x, y with Some a, Some b => (a <? b)%Z | _, _ => false end.
Definition geb (x y : parsed) : bool :=
  match x, y with Some a, Some b => (b <=? a)%Z | _, _ => false end.
Definition sub (x y : parsed) : parsed :=
  match x, y with Some a, Some b => Some (a - b)%Z | _, _ => None end.

(** The closure [validate] of [handleApplyConfig]. *)
Definition validate (doorCount prizeCount : parsed) : string :=
  if isNaN doorCount || isNaN prizeCount then NotANumber
  else if ltb doorCount (Some 3%Z) then TooFewDoors
  else if ltb prizeCount (Some 1%Z) then TooFewPrizes
  else if geb prizeCount doorCount then TooManyPrizes
  else if ltb (sub doorCount prizeCount) (Some 2%Z) then InsufficientSwitchChoice
  else "".

Record SimulatorConfig : Type := mkConfig {
  numberOfDoors : Z;
  numberOfPrizes : Z
}.

(** The two state cells of [App] that [handleApplyConfig] writes. *)
Record AppState : Type := mkApp {
  config : SimulatorConfig;
  error : string
}.

(** A JS string is truthy when it is not empty. *)
Definition truthy (s : string) : bool :=
  match s with EmptyString => false | String _ _ => true end.

Definition handleApplyConfig (doorCount prizeCount : parsed) (st : AppState)
  : AppState :=
  let errorMessage := validate doorCount prizeCount in
  if truthy errorMessage then mkApp (config st) errorMessage
  else
    match doorCount, prizeCount with
    | Some d, Some p => mkApp (mkConfig d p) ""
    | _, _ => st (* not reached: a NaN input gives a non-empty message *)
    end.

(** What an accepted configuration satisfies. *)
Definition valid (doorCount prizeCount : Z) : Prop :=
  (3 <= doorCount /\ 1 <= prizeCount /\ prizeCount < doorCount
   /\ 2 <= doorCount - prizeCount)%Z.

(** *** The texts of the form and [parseInt(text, 10)] *)












End Config.

(** ** The manual game of [Simulator] *)

Module Manual.

Record DoorState : Type := mkDoor {
  hasPrize : bool;
  isOpen : bool;
  isSelected : bool
}.

Inductive GameState : Type := initial | picked | revealed | finished.

Record ManualStats : Type := mkStats {
  stayWins : Z;
  switchWins : Z;
  total : Z
}.

(** The four state cells the manual game reads and writes. *)
Record ManualState : Type := mkState {
  doors : list DoorState;
  gameState : GameState;
  message : string;
  manualStats : ManualStats
}.

Definition pickMessage (numberOfDoors : nat) : string :=
  pretty numberOfDoors ++ "개의 문 중 하나를 선택하세요.".
Definition revealedMessage : string :=
  "선택을 유지하려면 원래 문을, 바꾸려면 다른 닫힌 문을 클릭하세요.".
Definition resultMessage (hasWon switched : bool) : string :=
  if hasWon
  then (if switched then "바꿔서 이겼습니다!" else "유지해서 이겼습니다!")
  else (if switched then "바꿔서 졌습니다." else "유지해서 졌습니다.").

(** [doors.findIndex(d => d.isSelected)], counting from [index]; -1 when
    no door is selected. *)
Fixpoint findIndexFrom (index : nat) (ds : list DoorState) : Z :=
  match ds with
  | [] => (-1)%Z
  | d :: rest => if isSelected d then Z.of_nat index
                 else findIndexFrom (S index) rest
  end.
Definition findIndex (ds : list DoorState) : Z := findIndexFrom 0 ds.

(** The [reduce] of the host's timer callback, from position [index] on:
    the indices of the doors that are neither selected nor hold a prize
    are pushed onto [acc] in order. *)
Fixpoint reduceFrom (index : nat) (ds : list DoorState) (acc : list nat)
  : list nat :=
  match ds with
  | [] => acc
  | door :: rest =>
      reduceFrom (S index) rest
        (if negb (isSelected door) && negb (hasPrize door)
         then acc ++ [index] else acc)
  end.
Definition hostOpenableDoors (currentDoors : list DoorState) : list nat :=
  reduceFrom 0 currentDoors [].

(** [hostOpenableDoors[Math.floor(Math.random() * hostOpenableDoors.length)]];
    [None] is [undefined]. *)
Definition hostOpenIndex (u : Sample) (currentDoors : list DoorState)
  : option nat :=
  let openable := hostOpenableDoors currentDoors in
  openable !! randomIndex u (length openable).

(** The updater the timer passes to [setDoors]. *)
Definition revealDoors (u : Sample) (currentDoors : list DoorState)
  : list DoorState :=
  let opened := hostOpenIndex u currentDoors in
  imap (fun index door =>
          mkDoor (hasPrize door) (bool_decide (Some index = opened))
                 (isSelected door))
       currentDoors.

(** The timer callback scheduled by the first click. *)
Definition hostTimer (u : Sample) (st : ManualState) : ManualState :=
  mkState (revealDoors u (doors st)) revealed revealedMessage
          (manualStats st).

(** The updater the final click passes to [setDoors]. *)
Definition revealAll (clickedIndex : nat) (currentDoors : list DoorState)
  : list DoorState :=
  imap (fun index door =>
          mkDoor (hasPrize door) true (bool_decide (index = clickedIndex)))
       currentDoors.

Definition handleDoorClick (clickedIndex : nat) (st : ManualState)
  : outcome ManualState :=
  match gameState st with
  | finished | picked => Returns st
  | initial =>
      match doors st !! clickedIndex with
      | None => Throws (* newDoors[clickedIndex] is undefined *)
      | Some door =>
          let newDoors :=
            <[clickedIndex := mkDoor (hasPrize door) (isOpen door) true]>
              (doors st) in
          Returns (mkState newDoors picked (message st) (manualStats st))
      end
  | revealed =>
      match doors st !! clickedIndex with
      | None => Throws (* doors[clickedIndex] is undefined *)
      | Some door =>
          if isOpen door then Returns st
          else
            let initialChoiceIndex := findIndex (doors st) in
            let switched :=
              negb (Z.of_nat clickedIndex =? initialChoiceIndex)%Z in
            let hasWon := hasPrize door in
            let prev := manualStats st in
            Returns
              (mkState
                 (revealAll clickedIndex (doors st))
                 finished
                 (resultMessage hasWon switched)
                 (mkStats
                    (if negb switched && hasWon
                     then stayWins prev + 1 else stayWins prev)%Z
                    (if switched && hasWon
                     then switchWins prev + 1 else switchWins prev)%Z
                    (total prev + 1)%Z))
      end
  end.

(** The component's configuration. [App] only ever passes a pair that
    [validate] accepted (or the initial 3 and 1), so both are naturals. *)
Section WithConfig.
Variables numberOfDoors numberOfPrizes : nat.

Definition closedDoor : DoorState := mkDoor false false false.

(** The [while] loop of [setupDoors]; one sample per iteration. *)
Fixpoint placePrizes (doors : list DoorState) (prizesPlaced : nat)
  (rs : list Sample) {struct rs} : outcome (list DoorState * list Sample) :=
  if prizesPlaced <? numberOfPrizes then
    match rs with
    | [] => Pending
    | u :: rs' =>
        let position := randomIndex u numberOfDoors in
        match doors !! position with
        | None => Throws (* doors[position] is undefined *)
        | Some door =>
            if hasPrize door then placePrizes doors prizesPlaced rs'
            else
              placePrizes
                (<[position := mkDoor true (isOpen door) (isSelected door)]>
                   doors)
                (S prizesPlaced) rs'
        end
    end
  else Returns (doors, rs).

(** [Array(numberOfDoors)] throws a [RangeError] when the length asked for
    is 2^32 or more. *)
Definition arrayLengthLimit : Z := 4294967296.

Definition setupDoors (rs : list Sample)
  : outcome (list DoorState * list Sample) :=
  if (arrayLengthLimit <=? Z.of_nat numberOfDoors)%Z then Throws
  else placePrizes (replicate numberOfDoors closedDoor) 0 rs.

Definition resetManualGame (rs : list Sample) (st : ManualState)
  : outcome (ManualState * list Sample) :=
  '(newDoors, rs') ← setupDoors rs;
  Returns (mkState newDoors initial (pickMessage numberOfDoors)
                   (manualStats st), rs').

(** The state after mounting: the [useState] initialisers, then the
    effect that calls [resetManualGame]. *)
Definition mount (rs : list Sample) : outcome (ManualState * list Sample) :=
  '(firstDoors, rs') ← setupDoors rs;
  resetManualGame rs'
    (mkState firstDoors initial (pickMessage numberOfDoors)
             (mkStats 0 0 0)).

(** Everything that can happen to a mounted manual game. *)
Inductive Action : Type :=
| Click (clickedIndex : nat)       (* a click on a door *)
| HostTimer (u : Sample)           (* the host's timer fires *)
| NewGame (rs : list Sample).      (* the new-game button *)

Definition perform (a : Action) (st : ManualState) : outcome ManualState :=
  match a with
  | Click clickedIndex => handleDoorClick clickedIndex st
  | HostTimer u => Returns (hostTimer u st)
  | NewGame rs => fst <$> resetManualGame rs st
  end.

Fixpoint performAll (acts : list Action) (st : ManualState)
  : outcome ManualState :=
  match acts with
  | [] => Returns st
  | a :: rest => st' ← perform a st; performAll rest st'
  end.

End WithConfig.

End Manual.

(** ** The automatic simulator of [Simulator] *)

Module Batch.

Record Stats : Type := mkStats { wins : Z; losses : Z }.

(** The state cells [runSimulation] and [handleStopSimulation] write. *)
Record SimUi : Type := mkUi {
  isSimulating : bool;
  progress : float;
  stayStats : Stats;
  switchStats : Stats;
  animationData : list string
}.

(** What one call of [runSimulation] does to the state cells: the state
    after the bookkeeping of each completed trial, in order, and the
    state once the function has run to its end. *)
Record Run : Type := mkRun {
  observed : list SimUi;
  final : outcome SimUi
}.

(** [currentDoors[k]] used as a condition: [undefined] is falsy. *)
Definition truthyAt (currentDoors : list bool) (k : nat) : bool :=
  default false (currentDoors !! k).

(** [currentDoors[pos] = true]. A write past the end extends a JS array;
    the holes it leaves read as [undefined], which every use of the
    array here treats like [false]. *)
Definition store (currentDoors : list bool) (pos : nat) : list bool :=
  if pos <? length currentDoors then <[pos := true]> currentDoors
  else currentDoors ++ replicate (pos - length currentDoors) false ++ [true].

(** [Math.floor(Math.random() * n)], taking the next sample. *)
Definition draw (n : nat) (rs : list Sample) : outcome (nat * list Sample) :=
  match rs with
  | [] => Pending
  | u :: rs' => Returns (randomIndex u n, rs')
  end.

(** The JS number (a double) holding the integer [k], rounded to nearest
    even when [k] is not representable. *)
Definition numberOf (k : nat) : float :=
  SF2Prim (binary_normalize prec emax (Z.of_nat k) 0 false).

(** [Math.ceil(a / b)] for a positive divisor. *)
Definition ceilDiv (a b : nat) : nat := (a + (b - 1)) / b.

(** [[...prevData.slice(-299), lastStayResult]]. *)
Definition pushMarker (prevData : list string) (lastStayResult : string)
  : list string :=
  drop (length prevData - 299) prevData ++ [lastStayResult].

Definition handleStopSimulation (ui : SimUi) : SimUi :=
  mkUi false (progress ui) (stayStats ui) (switchStats ui) (animationData ui).

Section WithConfig.
Variables numberOfDoors numberOfPrizes : nat.

(** The [while] loop that places the prizes of one trial. *)
Fixpoint fillPrizes (currentDoors : list bool) (prizesPlaced : nat)
  (rs : list Sample) {struct rs} : outcome (list bool * list Sample) :=
  if prizesPlaced <? numberOfPrizes then
    match rs with
    | [] => Pending
    | u :: rs' =>
        let pos := randomIndex u numberOfDoors in
        if truthyAt currentDoors pos
        then fillPrizes currentDoors prizesPlaced rs'
        else fillPrizes (store currentDoors pos) (S prizesPlaced) rs'
    end
  else Returns (currentDoors, rs).

(** Lines 179-187: the board of one trial. A trial only runs on a mounted
    component, that is after [setupDoors] has built an array of the same
    length, so [Array(numberOfDoors)] does not throw here. *)
Definition buildBoard (rs : list Sample)
  : outcome (list bool * list Sample) :=
  fillPrizes (replicate numberOfDoors false) 0 rs.

Definition otherDoors (playerChoice : nat) : list nat :=
  filter (fun k => k ≠ playerChoice) (seq 0 numberOfDoors).

Definition hostOpenable (currentDoors : list bool) (playerChoice : nat)
  : list nat :=
  filter (fun k => truthyAt currentDoors k = false) (otherDoors playerChoice).

(** [hostOpenable[r]] for the drawn index [r]; [None] is [undefined]. *)
Definition hostOpenedAt (currentDoors : list bool) (playerChoice r : nat)
  : option nat :=
  hostOpenable currentDoors playerChoice !! r.

(** [k !== hostOpened] holds for every [k] when [hostOpened] is
    [undefined]. *)
Definition switchable (playerChoice : nat) (hostOpened : option nat)
  : list nat :=
  filter (fun k => Some k ≠ hostOpened) (otherDoors playerChoice).

(** [currentDoors[switchChoice]] as a condition. *)
Definition switchWon (currentDoors : list bool) (switchChoice : option nat)
  : bool :=
  match switchChoice with
  | Some k => truthyAt currentDoors k
  | None => false
  end.

(** Lines 194-204: the switch outcome of one trial. *)
Definition scoreSwitch (currentDoors : list bool) (playerChoice : nat)
  (localSwitchWins : Z) (rs : list Sample) : outcome (Z * list Sample) :=
  let initialPickHasPrize := truthyAt currentDoors playerChoice in
  if negb initialPickHasPrize then
    '(r, rs1) ← draw (length (hostOpenable currentDoors playerChoice)) rs;
    let hostOpened := hostOpenedAt currentDoors playerChoice r in
    let candidates := switchable playerChoice hostOpened in
    '(r', rs2) ← draw (length candidates) rs1;
    let switchChoice := candidates !! r' in
    Returns (if switchWon currentDoors switchChoice
             then (localSwitchWins + 1)%Z else localSwitchWins, rs2)
  else Returns (localSwitchWins, rs).

(** Lines 179-204: one trial. Returns the two local counters, whether
    the picked door holds a prize, and the rest of the random source. *)
Definition trial (localStayWins localSwitchWins : Z) (rs : list Sample)
  : outcome (Z * Z * bool * list Sample) :=
  '(currentDoors, rs1) ← buildBoard rs;
  '(playerChoice, rs2) ← draw numberOfDoors rs1;
  let localStayWins' :=
    if truthyAt currentDoors playerChoice
    then (localStayWins + 1)%Z else localStayWins in
  '(localSwitchWins', rs3) ←
    scoreSwitch currentDoors playerChoice localSwitchWins rs2;
  Returns (localStayWins', localSwitchWins',
           truthyAt currentDoors playerChoice, rs3).

Section Loop.
Variable simulations : nat.
Variable speed : Z.
(** [stopDuring i]: the stop button is clicked while the loop sleeps
    after trial [i]. *)
Variable stopDuring : nat -> bool.

Definition delay : Z := Z.max 0 (100 - speed).

(** Lines 206-220: the bookkeeping after trial [i]. *)
Definition afterTrial (i : nat) (localStayWins localSwitchWins : Z)
  (pickHasPrize : bool) (ui : SimUi) : SimUi :=
  let stay := mkStats localStayWins (Z.of_nat i - localStayWins) in
  let switch := mkStats localSwitchWins (Z.of_nat i - localSwitchWins) in
  let data :=
    if i mod ceilDiv simulations 300 =? 0
    then pushMarker (animationData ui)
                    (if pickHasPrize then "win" else "loss")
    else animationData ui in
  let prog :=
    if i mod ceilDiv simulations 100 =? 0
    then (numberOf i / numberOf simulations * 100)%float
    else progress ui in
  mkUi (isSimulating ui) prog stay switch data.

(** Whether the loop sleeps after trial [i]. *)
Definition sleeps (i : nat) : bool :=
  (i mod ceilDiv simulations 100 =? 0) && (0 <? delay)%Z.

(** The [for] loop from trial [i] on, with [remaining] trials to go
    ([remaining = simulations + 1 - i], so the loop test
    [i <= simulations] is [remaining > 0]). [simulationStopped] is
    the flag [simulationStopped.current]; it can only change while
    the loop sleeps. *)
Fixpoint forLoop (remaining i : nat) (localStayWins localSwitchWins : Z)
  (simulationStopped : bool) (ui : SimUi) (rs : list Sample)
  : list SimUi * outcome SimUi :=
  match remaining with
  | 0 => ([], Returns ui)
  | S remaining' =>
      if simulationStopped then ([], Returns ui)
      else
        match trial localStayWins localSwitchWins rs with
        | Returns (localStayWins', localSwitchWins', pickHasPrize, rs') =>
            let ui' := afterTrial i localStayWins' localSwitchWins'
                                  pickHasPrize ui in
            let stopNow := sleeps i && stopDuring i in
            let rest :=
              forLoop remaining' (S i) localStayWins' localSwitchWins'
                stopNow
                (if stopNow then handleStopSimulation ui' else ui') rs' in
            (ui' :: rest.1, rest.2)
        | Throws => ([], Throws)
        | Pending => ([], Pending)
        end
  end.

Definition startUi : SimUi :=
  mkUi true 0%float (mkStats 0 0) (mkStats 0 0) [].

(** Lines 222-223. *)
Definition finish (ui : SimUi) : SimUi :=
  mkUi false 100%float (stayStats ui) (switchStats ui) (animationData ui).

Definition runSimulation (rs : list Sample) : Run :=
  let loop := forLoop simulations 1 0 0 false startUi rs in
  mkRun loop.1 (finish <$> loop.2).

End Loop.
End WithConfig.

End Batch.

(** ** Vocabulary of the properties *)

(** Number of doors of a manual-game board that hold a prize, and that do
    not. *)
Definition prizeDoors (ds : list Manual.DoorState) : nat :=
  length (filter (fun d => Manual.hasPrize d = true) ds).
Definition emptyDoors (ds : list Manual.DoorState) : nat :=
  length (filter (fun d => Manual.hasPrize d = false) ds).

(** The same for the boolean board of a simulated trial. *)
Definition prizeCells (cs : list bool) : nat :=
  length (filter (fun c => c = true) cs).
Definition emptyCells (cs : list bool) : nat :=
  length (filter (fun c => c = false) cs).

(** A board as [setupDoors] leaves it: every door closed and unselected. *)
Definition fresh (ds : list Manual.DoorState) : Prop :=
  Forall (fun d => Manual.isOpen d = false /\ Manual.isSelected d = false) ds.

(** [pick] is the one selected door of [ds]. *)
Definition onlySelected (ds : list Manual.DoorState) (pick : nat) : Prop :=
  pick < length ds /\
  forall j d, ds !! j = Some d -> (Manual.isSelected d = true <-> j = pick).

(** The random draws [rs], scaled to [n] doors, hit at least [p] different
    doors. *)
Definition hitsDistinct (n p : nat) (rs : list Sample) : Prop :=
  exists targets : list nat,
    NoDup targets /\ length targets = p /\
    forall t, t ∈ targets -> t ∈ map (fun u => randomIndex u n) rs.

(** The counters of the manual game are consistent. *)
Definition statsOk (s : Manual.ManualStats) : Prop :=
  (0 <= Manual.stayWins s /\ 0 <= Manual.switchWins s /\
   Manual.stayWins s + Manual.switchWins s <= Manual.total s)%Z.

(** Trials a [Stats] record accounts for. *)
Definition played (s : Batch.Stats) : Z := (Batch.wins s + Batch.losses s)%Z.

(** The board with prizes behind doors 0 and 1 of 4, as the manual game
    holds it. *)
Definition twoPrizeBoard : list Manual.DoorState :=
  [Manual.mkDoor true false false; Manual.mkDoor true false false;
   Manual.mkDoor false false false; Manual.mkDoor false false false].

(** [open] is the one open door of [ds]. *)
Definition onlyOpen (ds : list Manual.DoorState) (open : nat) : Prop :=
  open < length ds /\
  forall j d, ds !! j = Some d -> (Manual.isOpen d = true <-> j = open).

(** The value the trial-count input passes to [setSimulations]:
    [Math.max(1, parseInt(e.target.value) || 1)]. The operand [x || 1] is 1
    when [x] is [NaN] or 0. *)
Definition simulationsFromInput (x : Config.parsed) : Z :=
  Z.max 1 (match x with
           | Some v => if (v =? 0)%Z then 1 else v
           | None => 1
           end)%Z.

(** The two markers the simulator appends to [animationData]. *)
Definition isMarker (x : string) : Prop := x = "win" \/ x = "loss".

(** ** Random indices *)

Lemma randomIndex_lt (u : Sample) (n : nat) : 0 < n -> randomIndex u n < n.
Proof.
  intros Hn. unfold randomIndex.
  apply Nat.Div0.div_lt_upper_bound. nia.
Qed.

Lemma randomIndex_zero (u : Sample) : randomIndex u 0 = 0.
Proof. unfold randomIndex. rewrite Nat.mul_0_r. apply Nat.Div0.div_0_l. Qed.

Lemma randomIndex_sampleFor (k n : nat) :
  k < n -> randomIndex (sampleFor k n) n = k.
Proof.
  intros Hk. unfold randomIndex, sampleFor; simpl.
  replace (k + (n - S k) + 1) with n by lia.
  apply Nat.div_mul. lia.
Qed.

(** ** The configuration form *)

Lemma messages_nonempty :
  Config.NotANumber <> "" /\ Config.TooFewDoors <> "" /\
  Config.TooFewPrizes <> "" /\ Config.TooManyPrizes <> "" /\
  Config.InsufficientSwitchChoice <> "".
Proof. repeat split; discriminate. Qed.

Lemma validate_accepts (d p : Z) :
  Config.validate (Some d) (Some p) = "" <-> Config.valid d p.
Proof.
  unfold Config.validate, Config.valid; simpl.
  destruct (Z.ltb_spec d 3); [split; [discriminate | lia] |].
  destruct (Z.ltb_spec p 1); [split; [discriminate | lia] |].
  destruct (Z.leb_spec d p); [split; [discriminate | lia] |].
  destruct (Z.ltb_spec (d - p) 2); [split; [discriminate | lia] |].
  split; [lia | reflexivity].
Qed.

Lemma validate_nat (n p : nat) :
  Config.validate (Some (Z.of_nat n)) (Some (Z.of_nat p)) = "" ->
  3 <= n /\ 1 <= p /\ p + 2 <= n.
Proof. intros H. apply validate_accepts in H. unfold Config.valid in H. lia. Qed.

(** X1. The form replaces the configuration exactly when [validate]
    accepts the pair, and an accepted pair satisfies every rule; otherwise
    it keeps the configuration and shows the message. *)
Lemma handleApplyConfig_gate (x y : Config.parsed) (st : Config.AppState) :
  let st' := Config.handleApplyConfig x y st in
  (Config.validate x y = "" ->
   exists d p : Z, x = Some d /\ y = Some p /\ Config.valid d p /\
                   st' = Config.mkApp (Config.mkConfig d p) "") /\
  (Config.validate x y <> "" ->
   st' = Config.mkApp (Config.config st) (Config.validate x y)).
Proof.
  unfold Config.handleApplyConfig. split.
  - intros Hok. rewrite Hok. simpl.
    destruct x as [d |], y as [p |]; try discriminate.
    exists d, p. split; [reflexivity |]. split; [reflexivity |].
    split; [apply validate_accepts, Hok | reflexivity].
  - intros Hbad. destruct (Config.validate x y); [contradiction | reflexivity].
Qed.

(** On parse results, [validate] applies its five rules in order and reports
    the first one that fails: a [NaN] input gives the not-a-number message; otherwise
    fewer than 3 doors, then fewer than 1 prize, then at least as many
    prizes as doors, then fewer than 2 doors more than prizes, each give
    their own message, and only a pair passing all five is accepted. In
    particular (3, 1) is accepted and (3, 2) gets the message of the fifth
    rule. *)
Theorem validate_first_failure_wins :
  (forall x y : Config.parsed,
      x = None \/ y = None -> Config.validate x y = Config.NotANumber) /\
  (forall d p : Z,
      ((d < 3)%Z -> Config.validate (Some d) (Some p) = Config.TooFewDoors) /\
      ((3 <= d)%Z -> (p < 1)%Z ->
       Config.validate (Some d) (Some p) = Config.TooFewPrizes) /\
      ((3 <= d)%Z -> (1 <= p)%Z -> (d <= p)%Z ->
       Config.validate (Some d) (Some p) = Config.TooManyPrizes) /\
      ((3 <= d)%Z -> (1 <= p)%Z -> (p < d)%Z -> (d - p < 2)%Z ->
       Config.validate (Some d) (Some p) = Config.InsufficientSwitchChoice) /\
      ((3 <= d)%Z -> (1 <= p)%Z -> (p < d)%Z -> (2 <= d - p)%Z ->
       Config.validate (Some d) (Some p) = "")) /\
  Config.validate (Some 3%Z) (Some 1%Z) = "" /\
  Config.validate (Some 3%Z) (Some 2%Z) = Config.InsufficientSwitchChoice.
Proof.
  split; [| split; [| split; reflexivity]].
  - intros x y [-> | ->]; [reflexivity |]. destruct x; reflexivity.
  - intros d p. unfold Config.validate; simpl.
    destruct (Z.ltb_spec d 3), (Z.ltb_spec p 1), (Z.leb_spec d p),
      (Z.ltb_spec (d - p) 2); repeat split; intros; try reflexivity; lia.
Qed.

Lemma validate_first_failure_wins_witness :
  Config.validate None (Some 1%Z) = Config.NotANumber /\
  Config.validate (Some 2%Z) (Some 0%Z) = Config.TooFewDoors /\
  Config.validate (Some 5%Z) (Some 0%Z) = Config.TooFewPrizes /\
  Config.validate (Some 5%Z) (Some 7%Z) = Config.TooManyPrizes /\
  Config.validate (Some 5%Z) (Some 4%Z) = Config.InsufficientSwitchChoice /\
  Config.validate (Some 5%Z) (Some 3%Z) = "".
Proof.
  destruct validate_first_failure_wins as [Hnan [Hrules _]].
  split; [apply Hnan; left; reflexivity |].
  split; [apply (Hrules 2 0)%Z; lia |].
  split; [apply (Hrules 5 0)%Z; lia |].
  split; [apply (Hrules 5 7)%Z; lia |].
  split; [apply (Hrules 5 4)%Z; lia |].
  apply (Hrules 5 3)%Z; lia.
Defined.

(** ** The manual game *)

Lemma findIndexFrom_onlySelected (ds : list Manual.DoorState) :
  forall k pick, onlySelected ds pick ->
    Manual.findIndexFrom k ds = Z.of_nat (k + pick).
Proof.
  induction ds as [| d rest IH]; intros k pick [Hlt Hsel]; simpl in *.
  - lia.
  - destruct (Manual.isSelected d) eqn:Hd.
    + assert (0 = pick) as <- by (apply (Hsel 0 d); [reflexivity | exact Hd]).
      f_equal. lia.
    + destruct pick as [| pick'].
      * assert (Manual.isSelected d = true) by (apply (Hsel 0 d); reflexivity).
        congruence.
      * rewrite (IH (S k) pick'); [f_equal; lia |].
        split; [lia |]. intros j e Hj. rewrite (Hsel (S j) e Hj). lia.
Qed.

Lemma findIndex_onlySelected (ds : list Manual.DoorState) (pick : nat) :
  onlySelected ds pick -> Manual.findIndex ds = Z.of_nat pick.
Proof. intros H. apply (findIndexFrom_onlySelected ds 0 pick H). Qed.

(** The first click on a fresh board and the host's timer leave the clicked
    door as the one selected door. *)
Lemma pick_then_host_onlySelected (st st1 : Manual.ManualState)
  (clickedIndex : nat) (u : Sample) :
  fresh (Manual.doors st) -> Manual.gameState st = Manual.initial ->
  Manual.handleDoorClick clickedIndex st = Returns st1 ->
  Manual.gameState (Manual.hostTimer u st1) = Manual.revealed /\
  onlySelected (Manual.doors st1) clickedIndex /\
  onlySelected (Manual.doors (Manual.hostTimer u st1)) clickedIndex.
Proof.
  intros Hfresh Hinit Hclick. unfold Manual.handleDoorClick in Hclick.
  rewrite Hinit in Hclick.
  destruct (Manual.doors st !! clickedIndex) as [door |] eqn:Hdoor;
    [| discriminate].
  injection Hclick as <-. simpl.
  assert (Hlt : clickedIndex < length (Manual.doors st))
    by (eapply lookup_lt_Some; eassumption).
  assert (Hone : onlySelected
            (<[clickedIndex := Manual.mkDoor (Manual.hasPrize door)
                                 (Manual.isOpen door) true]> (Manual.doors st))
            clickedIndex).
  { split; [rewrite length_insert; exact Hlt |].
    intros j d Hj. destruct (decide (j = clickedIndex)) as [-> | Hne].
    - rewrite list_lookup_insert_eq in Hj by exact Hlt.
      injection Hj as <-. simpl. tauto.
    - rewrite list_lookup_insert_ne in Hj by congruence.
      unfold fresh in Hfresh. rewrite Forall_lookup in Hfresh.
      destruct (Hfresh j d Hj) as [_ Hs]. rewrite Hs.
      split; [discriminate | tauto]. }
  split; [reflexivity |]. split; [exact Hone |].
  destruct Hone as [Hlen Hsel]. unfold Manual.revealDoors.
  split; [rewrite length_imap; exact Hlen |].
  intros j d Hj. rewrite list_lookup_imap in Hj.
  destruct (_ !! j) as [e |] eqn:He; [| discriminate].
  simpl in Hj. injection Hj as <-. simpl. exact (Hsel j e He).
Qed.

(** C8. A final click in the revealed state on a closed door adds exactly 1
    to [total]; when the clicked door holds a prize it adds 1 to [stayWins]
    if the click is on the initial pick and 1 to [switchWins] otherwise,
    leaving the other counter alone; when the door holds no prize both win
    counters stay as they are. *)
Theorem finalize_counts_once (st : Manual.ManualState)
  (initialPick clickedIndex : nat) (door : Manual.DoorState) :
  Manual.gameState st = Manual.revealed ->
  onlySelected (Manual.doors st) initialPick ->
  Manual.doors st !! clickedIndex = Some door ->
  Manual.isOpen door = false ->
  exists st' : Manual.ManualState,
    Manual.handleDoorClick clickedIndex st = Returns st' /\
    Manual.gameState st' = Manual.finished /\
    let old := Manual.manualStats st in
    let new := Manual.manualStats st' in
    Manual.total new = (Manual.total old + 1)%Z /\
    (Manual.hasPrize door = true -> clickedIndex = initialPick ->
     Manual.stayWins new = (Manual.stayWins old + 1)%Z /\
     Manual.switchWins new = Manual.switchWins old) /\
    (Manual.hasPrize door = true -> clickedIndex <> initialPick ->
     Manual.stayWins new = Manual.stayWins old /\
     Manual.switchWins new = (Manual.switchWins old + 1)%Z) /\
    (Manual.hasPrize door = false ->
     Manual.stayWins new = Manual.stayWins old /\
     Manual.switchWins new = Manual.switchWins old).
Proof.
  intros Hrev Hsel Hdoor Hclosed.
  unfold Manual.handleDoorClick. rewrite Hrev, Hdoor, Hclosed.
  rewrite (findIndex_onlySelected _ _ Hsel).
  eexists. split; [reflexivity |]. split; [reflexivity |]. simpl.
  split; [reflexivity |].
  destruct (Z.eqb_spec (Z.of_nat clickedIndex) (Z.of_nat initialPick)) as [E | E];
    destruct (Manual.hasPrize door); simpl;
    repeat split; intros; try reflexivity; try discriminate; lia.
Qed.

Lemma finalize_counts_once_witness :
  let st := Manual.mkState
              [Manual.mkDoor false false true; Manual.mkDoor true false false;
               Manual.mkDoor false true false]
              Manual.revealed Manual.revealedMessage (Manual.mkStats 2 1 5) in
  exists st' : Manual.ManualState,
    Manual.handleDoorClick 1 st = Returns st' /\
    Manual.manualStats st' = Manual.mkStats 2 2 6.
Proof.
  intros st.
  destruct (finalize_counts_once st 0 1 (Manual.mkDoor true false false))
    as [st' [Hrun [_ [Htotal [_ [Hswitch _]]]]]].
  - reflexivity.
  - split; [simpl; lia |].
    intros [| [| [| j]]] d Hj; simpl in Hj; try discriminate;
      injection Hj as <-; simpl; split; intros;
      first [reflexivity | discriminate | exfalso; lia].
  - reflexivity.
  - reflexivity.
  - exists st'. split; [exact Hrun |].
    destruct (Hswitch eq_refl) as [Hs Hw]; [lia |].
    cbv zeta in Htotal, Hs, Hw.
    destruct (Manual.manualStats st') as [s w t]. simpl in *. subst.
    reflexivity.
Defined.

(** C9. A click that is not valid in the current state changes nothing and
    does not throw: any click while the host is thinking or after the game
    has finished, and a click on the open door in the revealed state, all
    return the state they were given. *)
Theorem invalid_click_is_noop (st : Manual.ManualState) (clickedIndex : nat) :
  (Manual.gameState st = Manual.picked \/
   Manual.gameState st = Manual.finished ->
   Manual.handleDoorClick clickedIndex st = Returns st) /\
  (forall door : Manual.DoorState,
      Manual.gameState st = Manual.revealed ->
      Manual.doors st !! clickedIndex = Some door ->
      Manual.isOpen door = true ->
      Manual.handleDoorClick clickedIndex st = Returns st).
Proof.
  unfold Manual.handleDoorClick. split.
  - intros [-> | ->]; reflexivity.
  - intros door -> -> ->. reflexivity.
Qed.

Lemma invalid_click_is_noop_witness :
  let board := [Manual.mkDoor false false true; Manual.mkDoor true false false;
                Manual.mkDoor false true false] in
  let thinking := Manual.mkState board Manual.picked "" (Manual.mkStats 0 0 0) in
  let awaiting := Manual.mkState board Manual.revealed "" (Manual.mkStats 0 0 0) in
  Manual.handleDoorClick 1 thinking = Returns thinking /\
  Manual.handleDoorClick 2 awaiting = Returns awaiting.
Proof.
  intros board thinking awaiting. split.
  - apply (invalid_click_is_noop thinking 1). left. reflexivity.
  - apply (proj2 (invalid_click_is_noop awaiting 2)
             (Manual.mkDoor false true false)); reflexivity.
Defined.

Lemma resetManualGame_stats (n p : nat) (rs rs' : list Sample)
  (st st' : Manual.ManualState) :
  Manual.resetManualGame n p rs st = Returns (st', rs') ->
  Manual.manualStats st' = Manual.manualStats st /\
  Manual.gameState st' = Manual.initial.
Proof.
  unfold Manual.resetManualGame. destruct (Manual.setupDoors n p rs) as [[ds r] | |];
    simpl; [| discriminate | discriminate].
  intros H. injection H as <- _. split; reflexivity.
Qed.

(** What one action does to the counters: nothing, or the bookkeeping of a
    finished game. *)
Lemma perform_stats (n p : nat) (a : Manual.Action) (st st' : Manual.ManualState) :
  Manual.perform n p a st = Returns st' ->
  Manual.manualStats st' = Manual.manualStats st \/
  (exists clickedIndex : nat,
      a = Manual.Click clickedIndex /\
      Manual.gameState st = Manual.revealed /\
      Manual.gameState st' = Manual.finished /\
      let old := Manual.manualStats st in
      let new := Manual.manualStats st' in
      Manual.total new = Manual.total old + 1 /\
      Manual.stayWins old <= Manual.stayWins new /\
      Manual.switchWins old <= Manual.switchWins new /\
      Manual.stayWins new + Manual.switchWins new
      <= Manual.stayWins old + Manual.switchWins old + 1)%Z.
Proof.
  destruct a as [clickedIndex | u | rs]; simpl.
  - unfold Manual.handleDoorClick.
    destruct (Manual.gameState st) eqn:Hstate.
    + destruct (Manual.doors st !! clickedIndex); [| discriminate].
      intros H; injection H as <-. left. reflexivity.
    + intros H; injection H as <-. left. reflexivity.
    + destruct (Manual.doors st !! clickedIndex) as [door |]; [| discriminate].
      destruct (Manual.isOpen door).
      * intros H; injection H as <-. left. reflexivity.
      * intros H; injection H as <-. right. exists clickedIndex.
        split; [reflexivity |]. split; [reflexivity |].
        split; [reflexivity |]. simpl.
        destruct (Z.of_nat clickedIndex =? Manual.findIndex (Manual.doors st))%Z,
          (Manual.hasPrize door); simpl; lia.
    + intros H; injection H as <-. left. reflexivity.
  - intros H; injection H as <-. left. reflexivity.
  - destruct (Manual.resetManualGame n p rs st) as [[st1 rs1] | |] eqn:Hreset;
      simpl; [| discriminate | discriminate].
    intros H; injection H as <-. left.
    apply (resetManualGame_stats _ _ _ _ _ _ Hreset).
Qed.

Lemma perform_statsOk (n p : nat) (a : Manual.Action) (st st' : Manual.ManualState) :
  Manual.perform n p a st = Returns st' ->
  statsOk (Manual.manualStats st) -> statsOk (Manual.manualStats st').
Proof.
  intros Hrun Hok. destruct (perform_stats _ _ _ _ _ Hrun) as [-> | Hfin];
    [exact Hok |].
  destruct Hfin as [i [_ [_ [_ H]]]]. cbv zeta in H.
  unfold statsOk in *. lia.
Qed.

Lemma performAll_statsOk (n p : nat) (acts : list Manual.Action) :
  forall st st' : Manual.ManualState,
    Manual.performAll n p acts st = Returns st' ->
    statsOk (Manual.manualStats st) -> statsOk (Manual.manualStats st').
Proof.
  induction acts as [| a rest IH]; intros st st' Hrun Hok; simpl in Hrun.
  - injection Hrun as <-. exact Hok.
  - destruct (Manual.perform n p a st) as [st1 | |] eqn:Hstep;
      simpl in Hrun; [| discriminate | discriminate].
    apply (IH st1 st' Hrun). apply (perform_statsOk _ _ _ _ _ Hstep Hok).
Qed.

Lemma mount_stats (n p : nat) (rs rs' : list Sample) (st0 : Manual.ManualState) :
  Manual.mount n p rs = Returns (st0, rs') ->
  Manual.manualStats st0 = Manual.mkStats 0 0 0.
Proof.
  unfold Manual.mount.
  destruct (Manual.setupDoors n p rs) as [[ds r] | |]; simpl;
    [| discriminate | discriminate].
  intros H. apply resetManualGame_stats in H. apply H.
Qed.

(** C10. The counters of the manual game always satisfy
    [stayWins + switchWins <= total]: they start at zero, every action
    either leaves them untouched or is a final click that adds 1 to [total]
    and at most 1 to the win counters together, and a new game keeps them;
    so the inequality holds in every state reachable after mounting. *)
Theorem manual_stats_bounded (n p : nat) :
  (forall (a : Manual.Action) (st st' : Manual.ManualState),
      Manual.perform n p a st = Returns st' ->
      (statsOk (Manual.manualStats st) -> statsOk (Manual.manualStats st')) /\
      (Manual.manualStats st' = Manual.manualStats st \/
       exists clickedIndex : nat,
         a = Manual.Click clickedIndex /\
         Manual.gameState st = Manual.revealed /\
         Manual.total (Manual.manualStats st')
         = (Manual.total (Manual.manualStats st) + 1)%Z)) /\
  (forall (rs rs' : list Sample) (st st' : Manual.ManualState),
      Manual.resetManualGame n p rs st = Returns (st', rs') ->
      Manual.manualStats st' = Manual.manualStats st) /\
  (forall (rs rs' : list Sample) (acts : list Manual.Action)
          (st0 st : Manual.ManualState),
      Manual.mount n p rs = Returns (st0, rs') ->
      Manual.performAll n p acts st0 = Returns st ->
      statsOk (Manual.manualStats st)).
Proof.
  split; [| split].
  - intros a st st' Hrun. split; [apply (perform_statsOk _ _ _ _ _ Hrun) |].
    destruct (perform_stats _ _ _ _ _ Hrun) as [E | [i [Ha [Hs [_ [Ht _]]]]]];
      [left; exact E | right; exists i; auto].
  - intros rs rs' st st' H. apply (resetManualGame_stats _ _ _ _ _ _ H).
  - intros rs rs' acts st0 st Hmount Hrun.
    apply (performAll_statsOk _ _ _ _ _ Hrun).
    rewrite (mount_stats _ _ _ _ _ Hmount). unfold statsOk; simpl. lia.
Qed.

Lemma manual_stats_bounded_witness :
  let rs := [sampleFor 0 3; sampleFor 1 3] in
  let acts := [Manual.Click 0; Manual.HostTimer (sampleFor 0 1);
               Manual.Click 1; Manual.NewGame [sampleFor 2 3]] in
  exists (st0 st : Manual.ManualState),
    Manual.mount 3 1 rs = Returns (st0, []) /\
    Manual.performAll 3 1 acts st0 = Returns st /\
    Manual.manualStats st = Manual.mkStats 0 1 1 /\
    statsOk (Manual.manualStats st).
Proof.
  intros rs acts.
  destruct (Manual.mount 3 1 rs) as [[st0 r] | |] eqn:Hmount;
    try (vm_compute in Hmount; discriminate).
  destruct (Manual.performAll 3 1 acts st0) as [st | |] eqn:Hrun;
    try (vm_compute in Hmount; injection Hmount as <- <-;
         vm_compute in Hrun; discriminate).
  exists st0, st.
  assert (Hr : r = []) by (vm_compute in Hmount; congruence).
  subst r. split; [reflexivity |]. split; [exact Hrun |].
  split.
  - vm_compute in Hmount. injection Hmount as <-.
    vm_compute in Hrun. injection Hrun as <-. reflexivity.
  - apply (proj2 (proj2 (manual_stats_bounded 3 1)) rs [] acts st0 st Hmount Hrun).
Defined.

(** ** The host's choice *)

(** The indices the host's [reduce] collects are exactly those of the doors
    that are neither selected nor hold a prize. *)
Lemma reduceFrom_elem (ds : list Manual.DoorState) :
  forall (k : nat) (acc : list nat) (j : nat),
    j ∈ Manual.reduceFrom k ds acc <->
    j ∈ acc \/
    exists (i : nat) (d : Manual.DoorState),
      ds !! i = Some d /\ j = k + i /\
      Manual.isSelected d = false /\ Manual.hasPrize d = false.
Proof.
  induction ds as [| d rest IH]; intros k acc j; simpl.
  - split; [auto |]. intros [H | (i & e & Hi & _)]; [exact H | discriminate].
  - rewrite IH. split.
    + intros [Hacc | (i & e & Hi & -> & Hs & Hp)].
      * destruct (Manual.isSelected d) eqn:Hsel, (Manual.hasPrize d) eqn:Hprize;
          simpl in Hacc; auto.
        apply elem_of_app in Hacc as [H | H]; [auto |].
        apply list_elem_of_singleton in H as ->.
        right. exists 0, d. repeat split; auto; lia.
      * right. exists (S i), e. repeat split; auto; lia.
    + intros [Hacc | (i & e & Hi & -> & Hs & Hp)].
      * left. destruct (negb _ && negb _); [apply elem_of_app |]; auto.
      * destruct i as [| i]; simpl in Hi.
        -- injection Hi as ->. rewrite Hs, Hp. simpl. left.
           apply elem_of_app. right. rewrite Nat.add_0_r.
           apply list_elem_of_singleton. reflexivity.
        -- right. exists i, e. repeat split; auto; lia.
Qed.

Lemma hostOpenableDoors_elem (ds : list Manual.DoorState) (j : nat) :
  j ∈ Manual.hostOpenableDoors ds <->
  exists d : Manual.DoorState,
    ds !! j = Some d /\ Manual.isSelected d = false /\ Manual.hasPrize d = false.
Proof.
  unfold Manual.hostOpenableDoors. rewrite reduceFrom_elem. split.
  - intros [H | (i & d & Hi & -> & Hs & Hp)].
    + apply elem_of_nil in H. contradiction.
    + exists d. auto.
  - intros (d & Hj & Hs & Hp). right. exists j, d. auto.
Qed.

Lemma hostOpenIndex_elem (u : Sample) (ds : list Manual.DoorState) (j : nat) :
  Manual.hostOpenIndex u ds = Some j -> j ∈ Manual.hostOpenableDoors ds.
Proof. unfold Manual.hostOpenIndex. intros H. eapply list_elem_of_lookup_2, H. Qed.

(** What the simulated host may open: a door of the board other than the
    player's, with a falsy cell. *)
Lemma hostOpenable_elem (n : nat) (cs : list bool) (pick j : nat) :
  j ∈ Batch.hostOpenable n cs pick <->
  j < n /\ j <> pick /\ Batch.truthyAt cs j = false.
Proof.
  unfold Batch.hostOpenable, Batch.otherDoors.
  rewrite !list_elem_of_filter, elem_of_seq. intuition lia.
Qed.

(** Reading a non-empty array at a random index of its own length gives one
    of its elements. *)
Lemma random_entry {A : Type} (l : list A) (u : Sample) :
  l <> [] -> exists x : A, l !! randomIndex u (length l) = Some x.
Proof.
  intros Hne. apply lookup_lt_is_Some_2, randomIndex_lt.
  destruct l; [contradiction | simpl; lia].
Qed.

(** C3. The door the host reveals is never the player's pick and never
    holds a prize. Manual game: after the first click on any board, the
    index the timer callback chooses, and every door that is open once the
    callback has run, is a door other than the clicked one that holds no
    prize. Simulator: for any board and pick, with or without a prize
    behind the pick, the index read from [hostOpenable] is a door of the
    board other than the pick, with no prize. *)
Theorem host_reveals_neither_pick_nor_prize :
  (forall (st st1 : Manual.ManualState) (clickedIndex : nat) (u : Sample),
      Manual.gameState st = Manual.initial ->
      Manual.handleDoorClick clickedIndex st = Returns st1 ->
      (forall j : nat,
          Manual.hostOpenIndex u (Manual.doors st1) = Some j ->
          j <> clickedIndex /\
          exists d, Manual.doors st !! j = Some d /\ Manual.hasPrize d = false) /\
      (forall (j : nat) (d : Manual.DoorState),
          Manual.doors (Manual.hostTimer u st1) !! j = Some d ->
          Manual.isOpen d = true ->
          j <> clickedIndex /\ Manual.hasPrize d = false)) /\
  (forall (n : nat) (currentDoors : list bool) (playerChoice r j : nat),
      Batch.hostOpenedAt n currentDoors playerChoice r = Some j ->
      j <> playerChoice /\ Batch.truthyAt currentDoors j = false /\ j < n).
Proof.
  split.
  - intros st st1 clickedIndex u Hinit Hclick.
    unfold Manual.handleDoorClick in Hclick. rewrite Hinit in Hclick.
    destruct (Manual.doors st !! clickedIndex) as [door |] eqn:Hdoor;
      [| discriminate].
    injection Hclick as <-. simpl.
    assert (Hlt : clickedIndex < length (Manual.doors st))
      by (eapply lookup_lt_Some; eassumption).
    set (picked := <[clickedIndex := _]> (Manual.doors st)).
    assert (Hchosen : forall j, Manual.hostOpenIndex u picked = Some j ->
              j <> clickedIndex /\
              exists d, Manual.doors st !! j = Some d /\ Manual.hasPrize d = false).
    { intros j Hj. apply hostOpenIndex_elem, hostOpenableDoors_elem in Hj.
      destruct Hj as (d & Hd & Hs & Hp). subst picked.
      destruct (decide (j = clickedIndex)) as [-> | Hne].
      - rewrite list_lookup_insert_eq in Hd by exact Hlt.
        injection Hd as <-. discriminate Hs.
      - rewrite list_lookup_insert_ne in Hd by congruence. eauto. }
    split; [exact Hchosen |].
    intros j d Hj Hopen. unfold Manual.revealDoors in Hj.
    rewrite list_lookup_imap in Hj.
    destruct (picked !! j) as [e |] eqn:He; [| discriminate].
    simpl in Hj. injection Hj as <-. simpl in *.
    apply bool_decide_eq_true in Hopen. symmetry in Hopen.
    split; [apply (Hchosen j Hopen) |].
    apply hostOpenIndex_elem, hostOpenableDoors_elem in Hopen.
    destruct Hopen as (d & Hd & _ & Hp). congruence.
  - intros n cs pick r j Hj. unfold Batch.hostOpenedAt in Hj.
    apply list_elem_of_lookup_2, hostOpenable_elem in Hj. tauto.
Qed.

Lemma host_reveals_neither_pick_nor_prize_witness :
  let board := [Manual.mkDoor true false false; Manual.mkDoor true false false;
                Manual.mkDoor false false false; Manual.mkDoor false false false] in
  let st := Manual.mkState board Manual.initial "" (Manual.mkStats 0 0 0) in
  (exists st1 : Manual.ManualState,
      Manual.handleDoorClick 0 st = Returns st1 /\
      Manual.hostOpenIndex (sampleFor 1 2) (Manual.doors st1) = Some 3 /\
      3 <> 0) /\
  Batch.hostOpenedAt 4 [true; true; false; false] 2 0 = Some 3 /\ 3 <> 2.
Proof.
  intros board st.
  destruct host_reveals_neither_pick_nor_prize as [Hmanual Hbatch]. split.
  - eexists. split; [reflexivity |]. split; [reflexivity |].
    exact (proj1 (proj1 (Hmanual st _ 0 (sampleFor 1 2) eq_refl eq_refl)
                        3 eq_refl)).
  - split; [reflexivity |].
    exact (proj1 (Hbatch 4 [true; true; false; false] 2 0 3 eq_refl)).
Defined.

(** ** Counting doors *)

Lemma filter_split_length {A : Type} (f : A -> bool) (l : list A) :
  length (filter (fun x => f x = true) l)
  + length (filter (fun x => f x = false) l) = length l.
Proof.
  induction l as [| x l IH]; [reflexivity |].
  rewrite !filter_cons.
  destruct (f x) eqn:Hx; repeat case_decide; simpl; try congruence; lia.
Qed.

Lemma emptyDoors_count (ds : list Manual.DoorState) :
  emptyDoors ds = length ds - prizeDoors ds.
Proof.
  unfold emptyDoors, prizeDoors.
  pose proof (filter_split_length Manual.hasPrize ds). lia.
Qed.

Lemma emptyCells_count (cs : list bool) :
  emptyCells cs = length cs - prizeCells cs.
Proof.
  unfold emptyCells, prizeCells.
  pose proof (filter_split_length (fun c : bool => c) cs) as H.
  cbv beta in H. lia.
Qed.

Lemma filter_one_position {A : Type} (P : A -> Prop) `{!forall x, Decision (P x)}
  (l : list A) :
  1 <= length (filter P l) -> exists i x, l !! i = Some x /\ P x.
Proof.
  destruct (filter P l) as [| x t] eqn:Hf; simpl; [lia |]. intros _.
  assert (Hx : x ∈ filter P l) by (rewrite Hf; left).
  apply list_elem_of_filter in Hx as [HP Hin].
  apply list_elem_of_lookup in Hin as [i Hi]. eauto.
Qed.

(** Two entries that pass a filter sit at two different positions. *)
Lemma filter_two_positions {A : Type} (P : A -> Prop)
  `{!forall x, Decision (P x)} (l : list A) :
  2 <= length (filter P l) ->
  exists i j x y, i <> j /\ l !! i = Some x /\ P x /\ l !! j = Some y /\ P y.
Proof.
  induction l as [| a l IH]; [simpl; lia |].
  rewrite filter_cons. destruct (decide (P a)) as [Ha | Ha]; simpl; intros Hlen.
  - destruct (filter_one_position P l) as (i & x & Hi & Hx); [lia |].
    exists 0, (S i), a, x. repeat split; auto.
  - destruct (IH Hlen) as (i & j & x & y & Hne & Hi & Hx & Hj & Hy).
    exists (S i), (S j), x, y. repeat split; auto.
Qed.

(** With at least two prize-free doors, one of them is not the pick. *)
Lemma spare_empty_door (ds : list Manual.DoorState) (pick : nat) :
  2 <= length ds - prizeDoors ds ->
  exists j d, j <> pick /\ ds !! j = Some d /\ Manual.hasPrize d = false.
Proof.
  rewrite <- emptyDoors_count. unfold emptyDoors. intros H.
  apply filter_two_positions in H as (i & j & x & y & Hne & Hi & Hx & Hj & Hy).
  destruct (decide (i = pick)) as [-> | Hip]; [exists j, y | exists i, x]; auto.
Qed.

Lemma spare_empty_cell (cs : list bool) (pick : nat) :
  2 <= length cs - prizeCells cs ->
  exists j, j <> pick /\ cs !! j = Some false.
Proof.
  rewrite <- emptyCells_count. unfold emptyCells. intros H.
  apply filter_two_positions in H as (i & j & x & y & Hne & Hi & Hx & Hj & Hy).
  subst x y.
  destruct (decide (i = pick)) as [-> | Hip]; [exists j | exists i]; auto.
Qed.

(** C4. When there are at least two more doors than prizes, the host always
    has a door to open. Manual game: on a fresh board of [n] doors with [p]
    prizes, after a click on any door the set the timer callback collects is
    exactly the prize-free doors other than the clicked one, it is not
    empty, and the index chosen from it is a door of the board. Simulator:
    on a board of [n] cells with [p] prizes, for every pick [hostOpenable]
    is not empty and the read at a random index of its length is a door of
    the board. *)
Theorem host_always_has_a_door (n p : nat) :
  2 <= n - p ->
  (forall (st : Manual.ManualState) (clickedIndex : nat) (u : Sample),
      length (Manual.doors st) = n -> prizeDoors (Manual.doors st) = p ->
      fresh (Manual.doors st) -> Manual.gameState st = Manual.initial ->
      clickedIndex < n ->
      exists st1 : Manual.ManualState,
        Manual.handleDoorClick clickedIndex st = Returns st1 /\
        (forall j : nat,
            j ∈ Manual.hostOpenableDoors (Manual.doors st1) <->
            j <> clickedIndex /\
            exists d, Manual.doors st !! j = Some d /\ Manual.hasPrize d = false) /\
        Manual.hostOpenableDoors (Manual.doors st1) <> [] /\
        exists j : nat,
          Manual.hostOpenIndex u (Manual.doors st1) = Some j /\ j < n) /\
  (forall (currentDoors : list bool) (playerChoice : nat) (u : Sample),
      length currentDoors = n -> prizeCells currentDoors = p ->
      let openable := Batch.hostOpenable n currentDoors playerChoice in
      openable <> [] /\
      exists j : nat,
        Batch.hostOpenedAt n currentDoors playerChoice
          (randomIndex u (length openable)) = Some j /\ j < n).
Proof.
  intros Hinv. split.
  - intros st clickedIndex u Hlen Hprizes Hfresh Hinit Hlt.
    unfold Manual.handleDoorClick. rewrite Hinit.
    destruct (Manual.doors st !! clickedIndex) as [door |] eqn:Hdoor.
    2: { apply lookup_ge_None in Hdoor. lia. }
    eexists. split; [reflexivity |]. simpl.
    set (picked := <[clickedIndex := _]> (Manual.doors st)).
    assert (Hset : forall j, j ∈ Manual.hostOpenableDoors picked <->
              j <> clickedIndex /\
              exists d, Manual.doors st !! j = Some d /\ Manual.hasPrize d = false).
    { intros j. rewrite hostOpenableDoors_elem. subst picked. split.
      - intros (d & Hd & Hs & Hp).
        destruct (decide (j = clickedIndex)) as [-> | Hne].
        + rewrite list_lookup_insert_eq in Hd by lia.
          injection Hd as <-. discriminate Hs.
        + rewrite list_lookup_insert_ne in Hd by congruence. eauto.
      - intros (Hne & d & Hd & Hp). exists d.
        rewrite list_lookup_insert_ne by congruence.
        unfold fresh in Hfresh. rewrite Forall_lookup in Hfresh.
        destruct (Hfresh j d Hd). auto. }
    assert (Hne : Manual.hostOpenableDoors picked <> []).
    { destruct (spare_empty_door (Manual.doors st) clickedIndex)
        as (j & d & Hj & Hd & Hp); [lia |].
      assert (Hin : j ∈ Manual.hostOpenableDoors picked) by (apply Hset; eauto).
      intros E. rewrite E in Hin. apply elem_of_nil in Hin. exact Hin. }
    split; [exact Hset |]. split; [exact Hne |].
    destruct (random_entry _ u Hne) as [j Hj]. exists j.
    split; [exact Hj |].
    apply list_elem_of_lookup_2, Hset in Hj as (_ & d & Hd & _).
    apply lookup_lt_Some in Hd. lia.
  - intros cs pick u Hlen Hprizes openable.
    assert (Hne : openable <> []).
    { destruct (spare_empty_cell cs pick) as (j & Hj & Hc); [lia |].
      assert (Hin : j ∈ openable).
      { apply hostOpenable_elem. split; [apply lookup_lt_Some in Hc; lia |].
        split; [exact Hj |]. unfold Batch.truthyAt. rewrite Hc. reflexivity. }
      intros E. rewrite E in Hin. apply elem_of_nil in Hin. exact Hin. }
    split; [exact Hne |].
    destruct (random_entry _ u Hne) as [j Hj]. exists j.
    split; [exact Hj |].
    apply list_elem_of_lookup_2, hostOpenable_elem in Hj. tauto.
Qed.

Lemma host_always_has_a_door_witness :
  2 <= 4 - 2 /\
  Batch.hostOpenable 4 [true; false; true; false] 1 <> [] /\
  exists j : nat,
    Batch.hostOpenedAt 4 [true; false; true; false] 1
      (randomIndex (sampleFor 0 1)
         (length (Batch.hostOpenable 4 [true; false; true; false] 1)))
    = Some j /\ j < 4.
Proof.
  split; [lia |].
  apply (proj2 (host_always_has_a_door 4 2 ltac:(simpl; lia))
           [true; false; true; false] 1 (sampleFor 0 1));
    reflexivity.
Defined.

(** ** Board generation *)

Lemma prizeDoors_insert (ds : list Manual.DoorState) :
  forall (pos : nat) (d : Manual.DoorState),
    ds !! pos = Some d -> Manual.hasPrize d = false ->
    prizeDoors (<[pos := Manual.mkDoor true (Manual.isOpen d)
                           (Manual.isSelected d)]> ds)
    = S (prizeDoors ds).
Proof.
  unfold prizeDoors.
  induction ds as [| a ds IH]; intros pos d Hd Hp; [discriminate |].
  destruct pos as [| pos]; simpl in *.
  - injection Hd as ->. rewrite !filter_cons.
    repeat case_decide; simpl in *; congruence.
  - rewrite !filter_cons. case_decide; simpl; rewrite (IH pos d Hd Hp);
      reflexivity.
Qed.

Lemma fresh_insert (ds : list Manual.DoorState) (pos : nat) (d : Manual.DoorState) :
  fresh ds -> ds !! pos = Some d ->
  fresh (<[pos := Manual.mkDoor true (Manual.isOpen d) (Manual.isSelected d)]> ds).
Proof.
  unfold fresh. intros Hf Hd. apply Forall_insert; [exact Hf |].
  rewrite Forall_lookup in Hf. exact (Hf pos d Hd).
Qed.

(** The loop of [setupDoors] keeps the number of doors, counts exactly the
    prizes it has placed, and touches no other flag. *)
Lemma placePrizes_exact (n p : nat) (rs : list Sample) :
  forall (ds : list Manual.DoorState) (placed : nat)
         (board : list Manual.DoorState) (rest : list Sample),
    prizeDoors ds = placed -> placed <= p -> fresh ds ->
    Manual.placePrizes n p ds placed rs = Returns (board, rest) ->
    length board = length ds /\ prizeDoors board = p /\ fresh board.
Proof.
  induction rs as [| u rs IH]; intros ds placed board rest Hcount Hle Hfresh;
    simpl; destruct (Nat.ltb_spec placed p) as [Hlt | Hge];
    try discriminate;
    try (intros H; injection H as <- <-; repeat split; auto; lia).
  destruct (ds !! randomIndex u n) as [door |] eqn:Hdoor; [| discriminate].
  destruct (Manual.hasPrize door) eqn:Hprize.
  - apply IH; auto.
  - intros H. apply IH in H.
    + rewrite length_insert in H. exact H.
    + rewrite (prizeDoors_insert _ _ _ Hdoor Hprize). lia.
    + lia.
    + apply fresh_insert; assumption.
Qed.

Lemma placePrizes_no_throw (n p : nat) (rs : list Sample) :
  0 < n ->
  forall (ds : list Manual.DoorState) (placed : nat),
    length ds = n -> Manual.placePrizes n p ds placed rs <> Throws.
Proof.
  intros Hn. induction rs as [| u rs IH]; intros ds placed Hlen; simpl;
    destruct (placed <? p); try discriminate.
  destruct (lookup_lt_is_Some_2 ds (randomIndex u n)) as [door Hdoor];
    [rewrite Hlen; apply randomIndex_lt, Hn |].
  rewrite Hdoor. destruct (Manual.hasPrize door); apply IH;
    [| rewrite length_insert]; exact Hlen.
Qed.

Lemma NoDup_filter_ne_length (l : list nat) (x : nat) :
  NoDup l -> length l <= S (length (filter (fun y => y ≠ x) l)).
Proof.
  induction 1 as [| a l Hnotin Hnd IH]; [simpl; lia |].
  rewrite filter_cons. destruct (decide (a ≠ x)) as [Hne | Heq]; simpl; [lia |].
  assert (a = x) as -> by (destruct (decide (a = x)); [auto | contradiction]).
  assert (Hall : filter (fun y => y ≠ x) l = l).
  { clear IH Hnd Heq. induction l as [| b l IHl]; [reflexivity |].
    rewrite filter_cons. apply not_elem_of_cons in Hnotin as [Hb Hl].
    rewrite decide_True by congruence. f_equal. apply IHl, Hl. }
  rewrite Hall. lia.
Qed.

(** The loop of [setupDoors] returns as soon as the draws have hit enough
    different prize-free doors. *)
Lemma placePrizes_returns (n p : nat) (rs : list Sample) :
  0 < n ->
  forall (ds : list Manual.DoorState) (placed : nat) (targets : list nat),
    length ds = n -> NoDup targets -> p <= placed + length targets ->
    (forall t, t ∈ targets ->
        t ∈ map (fun u => randomIndex u n) rs /\
        exists d, ds !! t = Some d /\ Manual.hasPrize d = false) ->
    exists board rest, Manual.placePrizes n p ds placed rs = Returns (board, rest).
Proof.
  intros Hn. induction rs as [| u rs IH];
    intros ds placed targets Hlen Hnd Hneed Hhit; simpl;
    destruct (Nat.ltb_spec placed p) as [Hlt | Hge]; eauto.
  - destruct targets as [| t targets]; [simpl in Hneed; lia |].
    destruct (Hhit t) as [Hin _]; [left |]. apply elem_of_nil in Hin.
    contradiction.
  - destruct (lookup_lt_is_Some_2 ds (randomIndex u n)) as [door Hdoor];
      [rewrite Hlen; apply randomIndex_lt, Hn |].
    rewrite Hdoor. destruct (Manual.hasPrize door) eqn:Hprize.
    + apply (IH ds placed targets); auto.
      intros t Ht. destruct (Hhit t Ht) as [Hin (d & Hd & Hp)].
      split; [| eauto]. simpl in Hin. apply elem_of_cons in Hin as [-> | Hin];
        [congruence | exact Hin].
    + apply (IH _ (S placed) (filter (fun y => y ≠ randomIndex u n) targets)).
      * rewrite length_insert. exact Hlen.
      * apply NoDup_filter, Hnd.
      * pose proof (NoDup_filter_ne_length targets (randomIndex u n) Hnd). lia.
      * intros t Ht. apply list_elem_of_filter in Ht as [Hne Ht].
        destruct (Hhit t Ht) as [Hin (d & Hd & Hp)]. split.
        -- simpl in Hin. apply elem_of_cons in Hin as [-> | Hin];
             [contradiction | exact Hin].
        -- exists d. rewrite list_lookup_insert_ne by congruence. auto.
Qed.

(** The trial's board is the [hasPrize] column of the manual game's board
    built from the same draws. *)
Lemma fillPrizes_placePrizes (n p : nat) (rs : list Sample) :
  0 < n ->
  forall (ds : list Manual.DoorState) (placed : nat),
    length ds = n ->
    Batch.fillPrizes n p (map Manual.hasPrize ds) placed rs
    = (fun br => (map Manual.hasPrize br.1, br.2))
        <$> Manual.placePrizes n p ds placed rs.
Proof.
  intros Hn. induction rs as [| u rs IH]; intros ds placed Hlen; simpl;
    destruct (placed <? p); try reflexivity.
  assert (Hpos : randomIndex u n < length ds)
    by (rewrite Hlen; apply randomIndex_lt, Hn).
  destruct (lookup_lt_is_Some_2 ds _ Hpos) as [door Hdoor].
  unfold Batch.truthyAt. rewrite list_lookup_fmap, Hdoor. simpl.
  destruct (Manual.hasPrize door); [apply IH, Hlen |].
  unfold Batch.store. rewrite length_map.
  destruct (Nat.ltb_spec (randomIndex u n) (length ds)); [| lia].
  rewrite <- IH by (rewrite length_insert; exact Hlen).
  rewrite list_fmap_insert. reflexivity.
Qed.

Lemma buildBoard_placePrizes (n p : nat) (rs : list Sample) :
  0 < n ->
  Batch.buildBoard n p rs
  = (fun br => (map Manual.hasPrize br.1, br.2))
      <$> Manual.placePrizes n p (replicate n Manual.closedDoor) 0 rs.
Proof.
  intros Hn. unfold Batch.buildBoard.
  rewrite <- (fillPrizes_placePrizes n p rs Hn) by apply length_replicate.
  f_equal. change (map Manual.hasPrize) with (fmap (M:=list) Manual.hasPrize).
  rewrite fmap_replicate. reflexivity.
Qed.

(** Below the array length limit [setupDoors] is its prize loop; at the
    limit or above it throws before drawing anything. *)
Lemma setupDoors_in_range (n p : nat) (rs : list Sample) :
  (Z.of_nat n < Manual.arrayLengthLimit)%Z ->
  Manual.setupDoors n p rs
  = Manual.placePrizes n p (replicate n Manual.closedDoor) 0 rs.
Proof.
  intros Hn. unfold Manual.setupDoors.
  destruct (Z.leb_spec Manual.arrayLengthLimit (Z.of_nat n)); [lia | reflexivity].
Qed.

Lemma setupDoors_out_of_range (n p : nat) (rs : list Sample) :
  (Manual.arrayLengthLimit <= Z.of_nat n)%Z ->
  Manual.setupDoors n p rs = Throws.
Proof.
  intros Hn. unfold Manual.setupDoors.
  destruct (Z.leb_spec Manual.arrayLengthLimit (Z.of_nat n)); [reflexivity | lia].
Qed.

Lemma buildBoard_setupDoors (n p : nat) (rs : list Sample) :
  0 < n -> (Z.of_nat n < Manual.arrayLengthLimit)%Z ->
  Batch.buildBoard n p rs
  = (fun br => (map Manual.hasPrize br.1, br.2)) <$> Manual.setupDoors n p rs.
Proof.
  intros Hn Hlim. rewrite setupDoors_in_range by exact Hlim.
  apply buildBoard_placePrizes, Hn.
Qed.

Lemma prizeCells_hasPrize (ds : list Manual.DoorState) :
  prizeCells (map Manual.hasPrize ds) = prizeDoors ds.
Proof.
  unfold prizeCells, prizeDoors. induction ds as [| d ds IH]; [reflexivity |].
  simpl. rewrite !filter_cons.
  destruct (Manual.hasPrize d); repeat case_decide; simpl; congruence.
Qed.

Lemma prizeDoors_replicate (n : nat) :
  prizeDoors (replicate n Manual.closedDoor) = 0.
Proof.
  unfold prizeDoors. induction n as [| n IH]; [reflexivity |].
  simpl. rewrite filter_cons. rewrite decide_False by discriminate. exact IH.
Qed.

Lemma fresh_replicate (n : nat) : fresh (replicate n Manual.closedDoor).
Proof. apply Forall_replicate. split; reflexivity. Qed.

Lemma setupDoors_exact (n p : nat) (rs rest : list Sample)
  (board : list Manual.DoorState) :
  Manual.setupDoors n p rs = Returns (board, rest) ->
  length board = n /\ prizeDoors board = p /\ fresh board.
Proof.
  unfold Manual.setupDoors.
  destruct (Manual.arrayLengthLimit <=? Z.of_nat n)%Z; [discriminate |].
  intros H. apply placePrizes_exact in H.
  - rewrite length_replicate in H. exact H.
  - apply prizeDoors_replicate.
  - lia.
  - apply fresh_replicate.
Qed.

Lemma setupDoors_returns (n p : nat) (rs : list Sample) :
  0 < n -> (Z.of_nat n < Manual.arrayLengthLimit)%Z -> p <= n ->
  hitsDistinct n p rs ->
  exists board rest, Manual.setupDoors n p rs = Returns (board, rest).
Proof.
  intros Hn Hlim Hp (targets & Hnd & Hlen & Hhit).
  rewrite setupDoors_in_range by exact Hlim.
  apply (placePrizes_returns n p rs Hn _ 0 targets);
    [apply length_replicate | exact Hnd | lia |].
  intros t Ht. specialize (Hhit t Ht). split; [exact Hhit |].
  exists Manual.closedDoor. split; [| reflexivity].
  apply lookup_replicate_2.
  apply list_elem_of_fmap in Hhit as (u & -> & _). apply randomIndex_lt, Hn.
Qed.

(** C5, as the code has it. For a configuration the form accepts with fewer
    than 2^32 doors, board generation yields, for whatever random draws it
    is given, only boards of [n] doors of which exactly [p] hold a prize
    and [n - p] do not, in the manual game's [setupDoors] and in the board
    of a simulated trial alike. It never throws, and it does return a
    board once the draws have hit [p] different doors. *)
Theorem board_generation_exact (n p : nat) (rs : list Sample) :
  Config.validate (Some (Z.of_nat n)) (Some (Z.of_nat p)) = "" ->
  (Z.of_nat n < Manual.arrayLengthLimit)%Z ->
  (forall (board : list Manual.DoorState) (rest : list Sample),
      Manual.setupDoors n p rs = Returns (board, rest) ->
      length board = n /\ prizeDoors board = p /\ emptyDoors board = n - p) /\
  (forall (cells : list bool) (rest : list Sample),
      Batch.buildBoard n p rs = Returns (cells, rest) ->
      length cells = n /\ prizeCells cells = p /\ emptyCells cells = n - p) /\
  Manual.setupDoors n p rs <> Throws /\
  Batch.buildBoard n p rs <> Throws /\
  (hitsDistinct n p rs ->
   (exists board rest, Manual.setupDoors n p rs = Returns (board, rest)) /\
   (exists cells rest, Batch.buildBoard n p rs = Returns (cells, rest))).
Proof.
  intros Hvalid Hlim. apply validate_nat in Hvalid as (Hn & Hp & Hgap).
  assert (Hpos : 0 < n) by lia.
  assert (Hmanual : forall board rest,
             Manual.setupDoors n p rs = Returns (board, rest) ->
             length board = n /\ prizeDoors board = p /\
             emptyDoors board = n - p).
  { intros board rest H. apply setupDoors_exact in H as (Hl & Hc & _).
    rewrite emptyDoors_count. auto with lia. }
  assert (Hthrow : Manual.setupDoors n p rs <> Throws).
  { rewrite setupDoors_in_range by exact Hlim.
    apply placePrizes_no_throw; [exact Hpos | apply length_replicate]. }
  split; [exact Hmanual |]. split; [| split; [exact Hthrow | split]].
  - intros cells rest. rewrite (buildBoard_setupDoors n p rs Hpos Hlim).
    destruct (Manual.setupDoors n p rs) as [[board r] | |] eqn:Hsetup;
      simpl; try discriminate.
    intros H. injection H as <- <-.
    destruct (Hmanual board r eq_refl) as (Hl & Hc & _).
    rewrite emptyCells_count, prizeCells_hasPrize, length_map. auto with lia.
  - rewrite (buildBoard_setupDoors n p rs Hpos Hlim).
    destruct (Manual.setupDoors n p rs); simpl; congruence.
  - intros Hhit.
    destruct (setupDoors_returns n p rs Hpos Hlim ltac:(lia) Hhit)
      as (board & rest & Hsetup).
    split; [eauto |].
    rewrite (buildBoard_setupDoors n p rs Hpos Hlim), Hsetup. simpl. eauto.
Qed.

Lemma board_generation_exact_witness :
  let rs := [sampleFor 1 4; sampleFor 1 4; sampleFor 3 4; sampleFor 0 4] in
  Config.validate (Some 4%Z) (Some 2%Z) = "" /\
  (4 < Manual.arrayLengthLimit)%Z /\
  hitsDistinct 4 2 rs /\
  (exists board rest,
      Manual.setupDoors 4 2 rs = Returns (board, rest) /\
      length board = 4 /\ prizeDoors board = 2 /\ emptyDoors board = 4 - 2) /\
  (exists cells rest,
      Batch.buildBoard 4 2 rs = Returns (cells, rest) /\
      length cells = 4 /\ prizeCells cells = 2 /\ emptyCells cells = 4 - 2).
Proof.
  intros rs.
  assert (Hhit : hitsDistinct 4 2 rs).
  { exists [1; 3]. split; [| split; [reflexivity |]].
    - apply NoDup_cons. split; [| apply NoDup_singleton].
      intros H. apply list_elem_of_singleton in H. discriminate.
    - intros t Ht. vm_compute.
      apply elem_of_cons in Ht as [-> | Ht];
        [| apply list_elem_of_singleton in Ht as ->];
        repeat first [apply list_elem_of_here | apply list_elem_of_further]. }
  destruct (board_generation_exact 4 2 rs eq_refl eq_refl)
    as (Hmanual & Hbatch & _ & _ & Hreturns).
  destruct (Hreturns Hhit) as [(board & rest & Hb) (cells & rest' & Hc)].
  split; [reflexivity |]. split; [reflexivity |]. split; [exact Hhit |]. split.
  - exists board, rest. split; [exact Hb | exact (Hmanual board rest Hb)].
  - exists cells, rest'. split; [exact Hc | exact (Hbatch cells rest' Hc)].
Defined.

(** C5 as stated fails: 2^32 doors with 1 prize is a configuration the form
    accepts, and for it [setupDoors] returns no board on any run: it
    throws, whatever the random draws. *)
Lemma board_generation_counterexample :
  let doorCount := 4294967296%Z in
  Config.validate (Some doorCount) (Some 1%Z) = "" /\
  forall rs : list Sample,
    Manual.setupDoors (Z.to_nat doorCount) 1 rs = Throws.
Proof.
  intros doorCount. split; [reflexivity |].
  intros rs. apply setupDoors_out_of_range.
  subst doorCount. rewrite Z2Nat.id; unfold Manual.arrayLengthLimit; lia.
Qed.

(** ** The simulation loop *)

Section LoopFacts.
Variables n p simulations : nat.
Variable speed : Z.
Variable stopDuring : nat -> bool.

#[local] Abbreviation loop := (Batch.forLoop n p simulations speed stopDuring).

(** The bookkeeping after trial [i] accounts for [i] trials under both
    strategies. *)
Lemma afterTrial_played (i : nat) (stay switch : Z) (won : bool)
  (ui : Batch.SimUi) :
  let ui' := Batch.afterTrial simulations i stay switch won ui in
  played (Batch.stayStats ui') = Z.of_nat i /\
  played (Batch.switchStats ui') = Z.of_nat i.
Proof. unfold played; simpl. lia. Qed.

Lemma forLoop_observed_played (remaining : nat) :
  forall (i : nat) (stay switch : Z) (stopped : bool) (ui : Batch.SimUi)
         (rs : list Sample) (k : nat) (s : Batch.SimUi),
    (loop remaining i stay switch stopped ui rs).1 !! k = Some s ->
    played (Batch.stayStats s) = Z.of_nat (i + k) /\
    played (Batch.switchStats s) = Z.of_nat (i + k).
Proof.
  induction remaining as [| remaining IH];
    intros i stay switch stopped ui rs k s; simpl; [discriminate |].
  destruct stopped; [discriminate |].
  destruct (Batch.trial n p stay switch rs) as [[[[stay' switch'] won] rs'] | |];
    simpl; [| discriminate | discriminate].
  destruct k as [| k]; simpl.
  - intros H. injection H as <-. rewrite Nat.add_0_r.
    apply afterTrial_played.
  - intros H. apply IH in H. replace (i + S k) with (S i + k) by lia.
    exact H.
Qed.

(** A loop entered with the flag set, or with no trial left, runs no
    trial. *)
Lemma forLoop_stopped (remaining i : nat) (stay switch : Z)
  (ui : Batch.SimUi) (rs : list Sample) :
  loop remaining i stay switch true ui rs = ([], Returns ui).
Proof. destruct remaining; reflexivity. Qed.

(** When the loop returns, the state it leaves carries the counters,
    progress and markers of the last completed trial (or of the start,
    if there was none). *)
Lemma forLoop_final (remaining : nat) :
  forall (i : nat) (stay switch : Z) (stopped : bool) (ui : Batch.SimUi)
         (rs : list Sample) (uf : Batch.SimUi),
    (loop remaining i stay switch stopped ui rs).2 = Returns uf ->
    let lastUi :=
      default ui (last (loop remaining i stay switch stopped ui rs).1) in
    Batch.stayStats uf = Batch.stayStats lastUi /\
    Batch.switchStats uf = Batch.switchStats lastUi /\
    Batch.progress uf = Batch.progress lastUi /\
    Batch.animationData uf = Batch.animationData lastUi.
Proof.
  induction remaining as [| remaining IH];
    intros i stay switch stopped ui rs uf; simpl.
  - intros H. injection H as <-. auto.
  - destruct stopped; [intros H; injection H as <-; auto |].
    destruct (Batch.trial n p stay switch rs)
      as [[[[stay' switch'] won] rs'] | |];
      simpl; [| discriminate | discriminate].
    intros H. apply IH in H. cbv zeta in H.
    rewrite last_cons.
    destruct (last _) as [l |]; simpl in *; [exact H |].
    destruct (_ && _); exact H.
Qed.

(** If the first stop request arrives while the loop sleeps after trial
    [k], and trial [k] is reached, the loop ends right there. *)
Lemma forLoop_cancelled (k : nat) (remaining : nat) :
  forall (i : nat) (stay switch : Z) (ui : Batch.SimUi) (rs : list Sample),
    i <= k ->
    (forall j, i <= j < k ->
               Batch.sleeps simulations speed j && stopDuring j = false) ->
    Batch.sleeps simulations speed k && stopDuring k = true ->
    k - i < length (loop remaining i stay switch false ui rs).1 ->
    length (loop remaining i stay switch false ui rs).1 = S (k - i) /\
    exists lastUi : Batch.SimUi,
      (loop remaining i stay switch false ui rs).1 !! (k - i) = Some lastUi /\
      (loop remaining i stay switch false ui rs).2
      = Returns (Batch.handleStopSimulation lastUi).
Proof.
  induction remaining as [| remaining IH];
    intros i stay switch ui rs Hik Hquiet Hstop; simpl; [lia |].
  destruct (Batch.trial n p stay switch rs)
    as [[[[stay' switch'] won] rs'] | |]; simpl; [| lia | lia].
  destruct (decide (i = k)) as [-> | Hne].
  - rewrite Hstop. intros _.
    rewrite forLoop_stopped. simpl. rewrite Nat.sub_diag.
    split; [reflexivity |]. eexists. split; reflexivity.
  - rewrite (Hquiet i) by lia. intros Hlen.
    replace (k - i) with (S (k - S i)) in * by lia.
    destruct (IH (S i) stay' switch'
                (Batch.afterTrial simulations i stay' switch' won ui) rs')
      as (Hl & lastUi & Hlast & Hfin); [lia | | exact Hstop | lia |].
    { intros j Hj. apply Hquiet. lia. }
    split; [lia |]. exists lastUi. split; [exact Hlast | exact Hfin].
Qed.

End LoopFacts.

(** C7. At the start of a run both strategies' counters account for 0
    trials; after every completed trial the wins and losses of the stay
    strategy add up to the number of trials completed so far, and so do
    those of the switch strategy; the same holds for the counters the run
    ends with. *)
Theorem batch_stats_account_for_trials (n p simulations : nat) (speed : Z)
  (stopDuring : nat -> bool) (rs : list Sample) :
  let run := Batch.runSimulation n p simulations speed stopDuring rs in
  (played (Batch.stayStats Batch.startUi) = 0%Z /\
   played (Batch.switchStats Batch.startUi) = 0%Z) /\
  (forall (k : nat) (ui : Batch.SimUi),
      Batch.observed run !! k = Some ui ->
      played (Batch.stayStats ui) = Z.of_nat (S k) /\
      played (Batch.switchStats ui) = Z.of_nat (S k)) /\
  (forall ui : Batch.SimUi,
      Batch.final run = Returns ui ->
      played (Batch.stayStats ui) = Z.of_nat (length (Batch.observed run)) /\
      played (Batch.switchStats ui) = Z.of_nat (length (Batch.observed run))).
Proof.
  intros run. subst run. unfold Batch.runSimulation. simpl.
  set (loop := Batch.forLoop n p simulations speed stopDuring simulations 1 0 0
                 false (Batch.startUi) rs).
  assert (Hobs : forall k ui, loop.1 !! k = Some ui ->
            played (Batch.stayStats ui) = Z.of_nat (S k) /\
            played (Batch.switchStats ui) = Z.of_nat (S k)).
  { intros k ui H.
    apply (forLoop_observed_played n p simulations speed stopDuring) in H.
    exact H. }
  split; [split; reflexivity |]. split; [exact Hobs |].
  intros ui Hfin. destruct loop.2 as [uf | |] eqn:Hloop;
    simpl in Hfin; try discriminate.
  injection Hfin as <-. simpl.
  destruct (forLoop_final n p simulations speed stopDuring _ _ _ _ _ _ _ _ Hloop)
    as (-> & -> & _). fold loop.
  destruct (last loop.1) as [l |] eqn:Hlast; simpl.
  - rewrite last_lookup in Hlast.
    pose proof (lookup_lt_Some _ _ _ Hlast) as Hlt.
    apply Hobs in Hlast.
    replace (S (Init.Nat.pred (length loop.1))) with (length loop.1) in Hlast
      by lia.
    exact Hlast.
  - apply last_None in Hlast. rewrite Hlast. split; reflexivity.
Qed.

Lemma batch_stats_account_for_trials_witness :
  let run := Batch.runSimulation 3 1 2 100 (fun _ => false)
               (replicate 4 (mkSample 0 0)) in
  exists ui : Batch.SimUi,
    Batch.observed run !! 1 = Some ui /\
    played (Batch.stayStats ui) = 2%Z /\
    played (Batch.switchStats ui) = 2%Z.
Proof.
  intros run.
  destruct (Batch.observed run !! 1) as [ui |] eqn:Hui;
    [| vm_compute in Hui; discriminate].
  exists ui. split; [reflexivity |].
  exact (proj1 (proj2 (batch_stats_account_for_trials 3 1 2 100
                         (fun _ => false) (replicate 4 (mkSample 0 0))))
           1 ui Hui).
Defined.

(** C2, as the code has it. When the first stop request arrives while the
    loop sleeps after trial [k], the loop runs no further trial: exactly [k]
    trials have been observed, the final counters are those of trial [k]
    and account for [k] trials under both strategies, the simulator is no
    longer marked as running, and the progress value is set to 100 as at
    the end of a complete run. *)
Theorem cancel_keeps_stats_and_sets_progress_100
  (n p simulations : nat) (speed : Z) (stopDuring : nat -> bool)
  (rs : list Sample) (k : nat) :
  let run := Batch.runSimulation n p simulations speed stopDuring rs in
  1 <= k ->
  Batch.sleeps simulations speed k = true ->
  stopDuring k = true ->
  (forall j, j < k -> Batch.sleeps simulations speed j = true ->
             stopDuring j = false) ->
  k <= length (Batch.observed run) ->
  length (Batch.observed run) = k /\
  exists lastUi ui : Batch.SimUi,
    Batch.observed run !! (k - 1) = Some lastUi /\
    Batch.final run = Returns ui /\
    Batch.stayStats ui = Batch.stayStats lastUi /\
    Batch.switchStats ui = Batch.switchStats lastUi /\
    played (Batch.stayStats ui) = Z.of_nat k /\
    played (Batch.switchStats ui) = Z.of_nat k /\
    Batch.isSimulating ui = false /\
    Batch.progress ui = 100%float.
Proof.
  intros run Hk Hsleep Hstop Hfirst Hreached. subst run.
  unfold Batch.runSimulation in *. simpl in *.
  destruct (forLoop_cancelled n p simulations speed stopDuring k simulations
              1 0%Z 0%Z Batch.startUi rs) as (Hlen & lastUi & Hlast & Hfin).
  - exact Hk.
  - intros j Hj. destruct (Batch.sleeps simulations speed j) eqn:Hs;
      [| reflexivity]. simpl. apply Hfirst; [lia | exact Hs].
  - rewrite Hsleep, Hstop. reflexivity.
  - lia.
  - split; [lia |]. exists lastUi, (Batch.finish (Batch.handleStopSimulation lastUi)).
    rewrite Hfin. simpl.
    apply (forLoop_observed_played n p simulations speed stopDuring) in Hlast
      as Hplayed.
    replace (1 + (k - 1)) with k in Hplayed by lia.
    repeat split; try reflexivity; try exact Hlast; apply Hplayed.
Qed.

Lemma cancel_keeps_stats_and_sets_progress_100_witness :
  let run := Batch.runSimulation 3 1 200 50 (fun i => i =? 2)
               (replicate 4 (mkSample 0 0)) in
  length (Batch.observed run) = 2 /\
  exists ui : Batch.SimUi,
    Batch.final run = Returns ui /\
    played (Batch.stayStats ui) = 2%Z /\
    Batch.progress ui = 100%float.
Proof.
  intros run.
  destruct (cancel_keeps_stats_and_sets_progress_100 3 1 200 50
              (fun i => i =? 2) (replicate 4 (mkSample 0 0)) 2)
    as (Hlen & lastUi & ui & _ & Hfin & _ & _ & Hplayed & _ & _ & Hprog).
  - lia.
  - reflexivity.
  - reflexivity.
  - intros [| [| j]] Hj Hs; [reflexivity | reflexivity | lia].
  - vm_compute. lia.
  - split; [exact Hlen |]. exists ui. auto.
Defined.

(** C2 as stated fails: with 200 trials asked for and the stop request
    arriving after trial 2, two trials are counted, yet the progress the
    run ends with is 100, which is neither the percentage of trials
    completed, (2 / 200) * 100 = 1, nor their fraction, 2 / 200. *)
Lemma cancel_progress_counterexample :
  let run := Batch.runSimulation 3 1 200 50 (fun i => i =? 2)
               (replicate 4 (mkSample 0 0)) in
  length (Batch.observed run) = 2 /\
  exists ui : Batch.SimUi,
    Batch.final run = Returns ui /\
    played (Batch.stayStats ui) = 2%Z /\
    played (Batch.switchStats ui) = 2%Z /\
    Batch.progress ui = 100%float /\
    Batch.progress ui
    <> (Batch.numberOf 2 / Batch.numberOf 200 * 100)%float /\
    Batch.progress ui <> (Batch.numberOf 2 / Batch.numberOf 200)%float.
Proof.
  intros run. split; [reflexivity |].
  eexists. split; [reflexivity |]. simpl.
  repeat split; try reflexivity; intros H;
    apply (f_equal (fun x => PrimFloat.ltb x 50)) in H;
    vm_compute in H; discriminate.
Qed.

(** ** The switch outcome of a trial *)

(** When the picked cell holds a prize, [scoreSwitch] draws nothing and
    leaves the switch counter as it is. *)
Lemma scoreSwitch_prize_pick (n : nat) (currentDoors : list bool)
  (playerChoice : nat) (localSwitchWins : Z) (rs : list Sample) :
  Batch.truthyAt currentDoors playerChoice = true ->
  Batch.scoreSwitch n currentDoors playerChoice localSwitchWins rs
  = Returns (localSwitchWins, rs).
Proof. intros H. unfold Batch.scoreSwitch. rewrite H. reflexivity. Qed.

(** C1, evaluated on the code. With 4 doors and 2 prizes, take the draws
    that put the prizes behind doors 0 and 1 and make the player pick door
    0. Whatever random draws follow, the simulated trial consumes none of
    them and leaves the switch counter unchanged: no host step and no
    switch is simulated, the switch outcome is a loss. On the same board
    the manual game, after the same pick and any host draw, scores a switch
    to door 1 as a switch win. *)
Theorem prize_pick_skips_switch_simulation
  (rs : list Sample) (localStayWins localSwitchWins : Z) (u : Sample) :
  let draws := sampleFor 0 4 :: sampleFor 1 4 :: sampleFor 0 4 :: rs in
  Batch.buildBoard 4 2 draws
  = Returns ([true; true; false; false], sampleFor 0 4 :: rs) /\
  Batch.trial 4 2 localStayWins localSwitchWins draws
  = Returns ((localStayWins + 1)%Z, localSwitchWins, true, rs) /\
  exists st : Manual.ManualState,
    Manual.performAll 4 2
      [Manual.Click 0; Manual.HostTimer u; Manual.Click 1]
      (Manual.mkState twoPrizeBoard Manual.initial (Manual.pickMessage 4)
                      (Manual.mkStats 0 0 0))
    = Returns st /\
    Manual.manualStats st = Manual.mkStats 0 1 1.
Proof.
  intros draws. split; [reflexivity |]. split; [reflexivity |].
  assert (Hr : randomIndex u 2 < 2) by (apply randomIndex_lt; lia).
  unfold Manual.performAll, Manual.perform, twoPrizeBoard. simpl.
  unfold Manual.hostTimer, Manual.revealDoors, Manual.hostOpenIndex. simpl.
  destruct (randomIndex u 2) as [| [| r]]; [| | lia];
    (eexists; split; reflexivity).
Qed.

(** * Further properties of the code *)

(** ** The inputs of the two forms *)

Lemma handleApplyConfig_gate_witness :
  let st := Config.mkApp (Config.mkConfig 3 1) "" in
  Config.handleApplyConfig (Some 5%Z) (Some 2%Z) st
  = Config.mkApp (Config.mkConfig 5 2) "" /\
  Config.handleApplyConfig (Some 3%Z) (Some 2%Z) st
  = Config.mkApp (Config.mkConfig 3 1) Config.InsufficientSwitchChoice.
Proof.
  intros st. split.
  - destruct (proj1 (handleApplyConfig_gate (Some 5%Z) (Some 2%Z) st) eq_refl)
      as (d & p & Hd & Hp & _ & Happ).
    injection Hd as <-. injection Hp as <-. exact Happ.
  - apply (proj2 (handleApplyConfig_gate (Some 3%Z) (Some 2%Z) st)).
    discriminate.
Defined.

Lemma ceilDiv_positive (a b : nat) : 1 <= a -> 1 <= b -> 1 <= Batch.ceilDiv a b.
Proof.
  intros Ha Hb. unfold Batch.ceilDiv.
  apply Nat.div_le_lower_bound; lia.
Qed.

(** X2. The trial count kept in the state is an integer of at least 1 whatever
    is typed; a typed count of at least 1 is kept as it is. So both
    interval lengths [Math.ceil(simulations / 300)] and
    [Math.ceil(simulations / 100)] are at least 1 and the loop never takes
    a remainder by zero. *)
Theorem simulations_input_at_least_one (x : Config.parsed) :
  let simulations := simulationsFromInput x in
  (1 <= simulations)%Z /\
  (forall v : Z, x = Some v -> (1 <= v)%Z -> simulations = v) /\
  1 <= Batch.ceilDiv (Z.to_nat simulations) 300 /\
  1 <= Batch.ceilDiv (Z.to_nat simulations) 100.
Proof.
  intros simulations. subst simulations.
  assert (H1 : (1 <= simulationsFromInput x)%Z)
    by (unfold simulationsFromInput; lia).
  split; [exact H1 |]. split.
  - intros v -> Hv. unfold simulationsFromInput.
    destruct (Z.eqb_spec v 0); lia.
  - split; apply ceilDiv_positive; lia.
Qed.

Lemma simulations_input_at_least_one_witness :
  simulationsFromInput (Some 250%Z) = 250%Z /\
  simulationsFromInput (Some 0%Z) = 1%Z /\
  simulationsFromInput (Some (-7)%Z) = 1%Z /\
  simulationsFromInput None = 1%Z.
Proof.
  split; [| repeat split; reflexivity].
  apply (proj1 (proj2 (simulations_input_at_least_one (Some 250%Z))) 250%Z);
    [reflexivity | lia].
Defined.

(** ** More of the manual game *)

Lemma hasPrize_insert_selected (ds : list Manual.DoorState) (i : nat)
  (door : Manual.DoorState) :
  ds !! i = Some door ->
  map Manual.hasPrize
    (<[i := Manual.mkDoor (Manual.hasPrize door) (Manual.isOpen door) true]> ds)
  = map Manual.hasPrize ds.
Proof.
  intros Hd. change (map Manual.hasPrize) with (fmap (M:=list) Manual.hasPrize).
  rewrite list_fmap_insert. simpl. apply list_insert_id.
  rewrite list_lookup_fmap, Hd. reflexivity.
Qed.

Lemma hasPrize_imap (f : nat -> Manual.DoorState -> Manual.DoorState)
  (ds : list Manual.DoorState) :
  (forall j d, Manual.hasPrize (f j d) = Manual.hasPrize d) ->
  map Manual.hasPrize (imap f ds) = map Manual.hasPrize ds.
Proof.
  intros Hf. apply list_eq. intros j.
  change (map Manual.hasPrize) with (fmap (M:=list) Manual.hasPrize).
  rewrite !list_lookup_fmap, list_lookup_imap.
  destruct (ds !! j) as [d |]; simpl; [rewrite Hf |]; reflexivity.
Qed.

(** X3. The first click of a game, on a door of a fresh board, moves the
    game to the picked state and selects the clicked door and no other; it
    opens nothing, moves no prize and leaves message and counters alone. *)
Theorem first_click_selects_only_pick (st : Manual.ManualState)
  (clickedIndex : nat) :
  Manual.gameState st = Manual.initial ->
  fresh (Manual.doors st) ->
  clickedIndex < length (Manual.doors st) ->
  exists st1 : Manual.ManualState,
    Manual.handleDoorClick clickedIndex st = Returns st1 /\
    Manual.gameState st1 = Manual.picked /\
    onlySelected (Manual.doors st1) clickedIndex /\
    Forall (fun d => Manual.isOpen d = false) (Manual.doors st1) /\
    map Manual.hasPrize (Manual.doors st1) = map Manual.hasPrize (Manual.doors st) /\
    Manual.message st1 = Manual.message st /\
    Manual.manualStats st1 = Manual.manualStats st.
Proof.
  intros Hinit Hfresh Hlt.
  destruct (lookup_lt_is_Some_2 _ _ Hlt) as [door Hdoor].
  assert (Hclick : Manual.handleDoorClick clickedIndex st
                   = Returns (Manual.mkState
                       (<[clickedIndex := Manual.mkDoor (Manual.hasPrize door)
                                            (Manual.isOpen door) true]>
                          (Manual.doors st))
                       Manual.picked (Manual.message st) (Manual.manualStats st)))
    by (unfold Manual.handleDoorClick; rewrite Hinit, Hdoor; reflexivity).
  eexists. split; [exact Hclick |]. simpl.
  split; [reflexivity |]. split.
  - apply (pick_then_host_onlySelected st _ clickedIndex (mkSample 0 0)
             Hfresh Hinit Hclick).
  - split; [| split; [apply hasPrize_insert_selected, Hdoor | split; reflexivity]].
    unfold fresh in Hfresh. rewrite Forall_lookup in Hfresh.
    apply Forall_insert.
    + apply Forall_lookup. intros j d Hd. apply (Hfresh j d Hd).
    + simpl. apply (Hfresh _ _ Hdoor).
Qed.

Lemma first_click_selects_only_pick_witness :
  exists st1 : Manual.ManualState,
    Manual.handleDoorClick 2
      (Manual.mkState twoPrizeBoard Manual.initial "" (Manual.mkStats 0 0 0))
    = Returns st1 /\
    Manual.gameState st1 = Manual.picked /\
    onlySelected (Manual.doors st1) 2.
Proof.
  destruct (first_click_selects_only_pick
              (Manual.mkState twoPrizeBoard Manual.initial ""
                              (Manual.mkStats 0 0 0)) 2)
    as (st1 & Hrun & Hstate & Hsel & _).
  - reflexivity.
  - unfold fresh, twoPrizeBoard. simpl. repeat constructor.
  - simpl. lia.
  - exists st1. auto.
Defined.

(** X4. A click with an index outside the board throws while the game
    awaits the first or the final choice (the door read is [undefined]),
    before any state is written; while the host is thinking or the game is
    over it is ignored like any other click. *)
Theorem click_outside_board (st : Manual.ManualState) (clickedIndex : nat) :
  length (Manual.doors st) <= clickedIndex ->
  (Manual.gameState st = Manual.initial \/
   Manual.gameState st = Manual.revealed ->
   Manual.handleDoorClick clickedIndex st = Throws) /\
  (Manual.gameState st = Manual.picked \/
   Manual.gameState st = Manual.finished ->
   Manual.handleDoorClick clickedIndex st = Returns st).
Proof.
  intros Hout. apply lookup_ge_None in Hout.
  unfold Manual.handleDoorClick.
  split; intros [-> | ->]; try rewrite Hout; reflexivity.
Qed.

Lemma click_outside_board_witness :
  Manual.handleDoorClick 4
    (Manual.mkState twoPrizeBoard Manual.initial "" (Manual.mkStats 0 0 0))
  = Throws.
Proof.
  apply (proj1 (click_outside_board
                  (Manual.mkState twoPrizeBoard Manual.initial ""
                                  (Manual.mkStats 0 0 0)) 4
                  ltac:(simpl; lia))).
  left. reflexivity.
Defined.

(** The host's choice after a pick on a fresh board with two doors more
    than prizes. *)
Lemma picked_host_choice (ds : list Manual.DoorState) (i : nat)
  (door : Manual.DoorState) (u : Sample) :
  fresh ds -> ds !! i = Some door -> 2 <= length ds - prizeDoors ds ->
  exists (j : nat) (d : Manual.DoorState),
    Manual.hostOpenIndex u
      (<[i := Manual.mkDoor (Manual.hasPrize door) (Manual.isOpen door) true]> ds)
    = Some j /\
    j <> i /\ ds !! j = Some d /\ Manual.hasPrize d = false.
Proof.
  intros Hfresh Hdoor Hgap.
  set (picked := <[i := _]> ds).
  assert (Hlt : i < length ds) by (eapply lookup_lt_Some; eassumption).
  assert (Hin : forall j, j ∈ Manual.hostOpenableDoors picked ->
            j <> i /\ exists d, ds !! j = Some d /\ Manual.hasPrize d = false).
  { intros j Hj. apply hostOpenableDoors_elem in Hj as (d & Hd & Hs & Hp).
    subst picked. destruct (decide (j = i)) as [-> | Hne].
    - rewrite list_lookup_insert_eq in Hd by exact Hlt.
      injection Hd as <-. discriminate Hs.
    - rewrite list_lookup_insert_ne in Hd by congruence. eauto. }
  assert (Hne : Manual.hostOpenableDoors picked <> []).
  { destruct (spare_empty_door ds i Hgap) as (j & d & Hj & Hd & Hp).
    assert (Hel : j ∈ Manual.hostOpenableDoors picked).
    { apply hostOpenableDoors_elem. exists d. subst picked.
      rewrite list_lookup_insert_ne by congruence.
      unfold fresh in Hfresh. rewrite Forall_lookup in Hfresh.
      destruct (Hfresh j d Hd). auto. }
    intros E. rewrite E in Hel. apply elem_of_nil in Hel. exact Hel. }
  destruct (random_entry _ u Hne) as [j Hj].
  pose proof (list_elem_of_lookup_2 _ _ _ Hj) as Hel.
  destruct (Hin j Hel) as (Hji & d & Hd & Hp).
  exists j, d. auto.
Qed.

Lemma revealDoors_lookup (u : Sample) (ds : list Manual.DoorState) (j : nat)
  (d : Manual.DoorState) :
  Manual.revealDoors u ds !! j = Some d <->
  exists e, ds !! j = Some e /\
            d = Manual.mkDoor (Manual.hasPrize e)
                  (bool_decide (Some j = Manual.hostOpenIndex u ds))
                  (Manual.isSelected e).
Proof.
  unfold Manual.revealDoors. rewrite list_lookup_imap.
  destruct (ds !! j) as [e |]; simpl; split.
  - intros H. injection H as <-. eauto.
  - intros (e' & He & ->). injection He as <-. reflexivity.
  - discriminate.
  - intros (e' & He & _). discriminate.
Qed.

(** X5. With at least two doors more than prizes, a pick on a fresh board
    followed by the host's timer always ends in the revealed state with
    exactly one open door; that door is not the pick and holds no prize,
    the pick is still the one selected door and no prize has moved. *)
Theorem pick_then_host_opens_one_door (st : Manual.ManualState)
  (clickedIndex : nat) (u : Sample) :
  Manual.gameState st = Manual.initial ->
  fresh (Manual.doors st) ->
  clickedIndex < length (Manual.doors st) ->
  2 <= length (Manual.doors st) - prizeDoors (Manual.doors st) ->
  exists (st1 : Manual.ManualState) (opened : nat) (d : Manual.DoorState),
    Manual.handleDoorClick clickedIndex st = Returns st1 /\
    let st2 := Manual.hostTimer u st1 in
    Manual.gameState st2 = Manual.revealed /\
    onlyOpen (Manual.doors st2) opened /\
    opened <> clickedIndex /\
    Manual.doors st2 !! opened = Some d /\ Manual.hasPrize d = false /\
    onlySelected (Manual.doors st2) clickedIndex /\
    map Manual.hasPrize (Manual.doors st2) = map Manual.hasPrize (Manual.doors st).
Proof.
  intros Hinit Hfresh Hlt Hgap.
  destruct (lookup_lt_is_Some_2 _ _ Hlt) as [door Hdoor].
  destruct (picked_host_choice _ _ _ u Hfresh Hdoor Hgap)
    as (j & e & Hj & Hne & He & Hp).
  assert (Hclick : Manual.handleDoorClick clickedIndex st
                   = Returns (Manual.mkState
                       (<[clickedIndex := Manual.mkDoor (Manual.hasPrize door)
                                            (Manual.isOpen door) true]>
                          (Manual.doors st))
                       Manual.picked (Manual.message st) (Manual.manualStats st)))
    by (unfold Manual.handleDoorClick; rewrite Hinit, Hdoor; reflexivity).
  destruct (pick_then_host_onlySelected st _ clickedIndex u Hfresh Hinit Hclick)
    as (_ & _ & Hsel).
  set (picked := <[clickedIndex := _]> (Manual.doors st)) in *.
  assert (Hjlt : j < length picked)
    by (subst picked; rewrite length_insert; eapply lookup_lt_Some; eassumption).
  destruct (lookup_lt_is_Some_2 _ _ Hjlt) as [e' He'].
  assert (He'e : e' = e)
    by (subst picked; rewrite list_lookup_insert_ne in He'; congruence).
  subst e'.
  exists (Manual.mkState picked Manual.picked (Manual.message st)
                         (Manual.manualStats st)), j,
         (Manual.mkDoor (Manual.hasPrize e) true (Manual.isSelected e)).
  split; [exact Hclick |]. simpl in *.
  split; [reflexivity |]. split; [| split; [exact Hne | split; [| split]]].
  - split; [unfold Manual.revealDoors; rewrite length_imap; exact Hjlt |].
    intros i d Hd. apply revealDoors_lookup in Hd as (x & _ & ->). simpl.
    rewrite Hj, bool_decide_eq_true. split; congruence.
  - apply revealDoors_lookup. exists e. split; [exact He' |].
    rewrite Hj, bool_decide_true by reflexivity. reflexivity.
  - exact Hp.
  - split; [exact Hsel |]. unfold Manual.revealDoors.
    rewrite hasPrize_imap by reflexivity.
    subst picked. apply hasPrize_insert_selected, Hdoor.
Qed.

Lemma pick_then_host_opens_one_door_witness :
  exists (st1 : Manual.ManualState) (opened : nat),
    Manual.handleDoorClick 0
      (Manual.mkState twoPrizeBoard Manual.initial "" (Manual.mkStats 0 0 0))
    = Returns st1 /\
    onlyOpen (Manual.doors (Manual.hostTimer (sampleFor 1 2) st1)) opened /\
    opened <> 0.
Proof.
  destruct (pick_then_host_opens_one_door
              (Manual.mkState twoPrizeBoard Manual.initial ""
                              (Manual.mkStats 0 0 0)) 0 (sampleFor 1 2))
    as (st1 & opened & d & Hrun & _ & Hopen & Hne & _).
  - reflexivity.
  - unfold fresh, twoPrizeBoard. simpl. repeat constructor.
  - simpl. lia.
  - vm_compute. lia.
  - exists st1, opened. auto.
Defined.

(** X6. When every door is selected or holds a prize the host has nothing
    to open: the index read is [undefined], the timer callback opens no
    door, throws nothing and still moves the game to the revealed state,
    with selection, prizes and counters as they were. *)
Theorem host_without_openable_door (u : Sample) (st : Manual.ManualState) :
  (forall j d, Manual.doors st !! j = Some d ->
               Manual.isSelected d = true \/ Manual.hasPrize d = true) ->
  Manual.hostOpenIndex u (Manual.doors st) = None /\
  let st' := Manual.hostTimer u st in
  Manual.gameState st' = Manual.revealed /\
  Forall (fun d => Manual.isOpen d = false) (Manual.doors st') /\
  map Manual.hasPrize (Manual.doors st') = map Manual.hasPrize (Manual.doors st) /\
  map Manual.isSelected (Manual.doors st')
  = map Manual.isSelected (Manual.doors st) /\
  Manual.manualStats st' = Manual.manualStats st.
Proof.
  intros Hnone.
  assert (Hempty : Manual.hostOpenableDoors (Manual.doors st) = []).
  { destruct (Manual.hostOpenableDoors (Manual.doors st)) as [| j t] eqn:E;
      [reflexivity |].
    assert (Hj : j ∈ Manual.hostOpenableDoors (Manual.doors st))
      by (rewrite E; left).
    apply hostOpenableDoors_elem in Hj as (d & Hd & Hs & Hp).
    destruct (Hnone j d Hd); congruence. }
  assert (Hidx : Manual.hostOpenIndex u (Manual.doors st) = None)
    by (unfold Manual.hostOpenIndex; rewrite Hempty; reflexivity).
  split; [exact Hidx |]. simpl.
  split; [reflexivity |]. split; [| split; [| split; [| reflexivity]]].
  - apply Forall_lookup. intros j d Hd.
    apply revealDoors_lookup in Hd as (e & _ & ->). simpl.
    rewrite Hidx. reflexivity.
  - unfold Manual.revealDoors. apply hasPrize_imap. reflexivity.
  - apply list_eq. intros j.
    change (map Manual.isSelected) with (fmap (M:=list) Manual.isSelected).
    unfold Manual.revealDoors. rewrite !list_lookup_fmap, list_lookup_imap.
    destruct (Manual.doors st !! j); reflexivity.
Qed.

Lemma host_without_openable_door_witness :
  let board := [Manual.mkDoor false false true; Manual.mkDoor true false false;
                Manual.mkDoor true false false] in
  let st := Manual.mkState board Manual.picked "" (Manual.mkStats 0 0 0) in
  Manual.hostOpenIndex (sampleFor 0 1) board = None /\
  Manual.gameState (Manual.hostTimer (sampleFor 0 1) st) = Manual.revealed.
Proof.
  intros board st.
  destruct (host_without_openable_door (sampleFor 0 1) st)
    as (Hidx & Hstate & _).
  - intros [| [| [| j]]] d Hd; simpl in Hd; try discriminate;
      injection Hd as <-; simpl; auto.
  - split; [exact Hidx | exact Hstate].
Defined.

(** X7. The final click on a closed door ends the game with every door
    open, the clicked door the only selected one, every prize where it
    was, and the message of the result: won or lost, by staying if the
    click is on the initial pick and by switching otherwise. *)
Theorem finalize_reveals_all (st : Manual.ManualState)
  (initialPick clickedIndex : nat) (door : Manual.DoorState) :
  Manual.gameState st = Manual.revealed ->
  onlySelected (Manual.doors st) initialPick ->
  Manual.doors st !! clickedIndex = Some door ->
  Manual.isOpen door = false ->
  exists st' : Manual.ManualState,
    Manual.handleDoorClick clickedIndex st = Returns st' /\
    Manual.gameState st' = Manual.finished /\
    Forall (fun d => Manual.isOpen d = true) (Manual.doors st') /\
    onlySelected (Manual.doors st') clickedIndex /\
    map Manual.hasPrize (Manual.doors st') = map Manual.hasPrize (Manual.doors st) /\
    Manual.message st'
    = Manual.resultMessage (Manual.hasPrize door)
        (bool_decide (clickedIndex <> initialPick)).
Proof.
  intros Hrev Hsel Hdoor Hclosed.
  unfold Manual.handleDoorClick. rewrite Hrev, Hdoor, Hclosed.
  rewrite (findIndex_onlySelected _ _ Hsel).
  eexists. split; [reflexivity |]. simpl.
  split; [reflexivity |]. split; [| split; [| split]].
  - apply Forall_lookup. intros j d Hd. unfold Manual.revealAll in Hd.
    rewrite list_lookup_imap in Hd.
    destruct (Manual.doors st !! j); [| discriminate].
    simpl in Hd. injection Hd as <-. reflexivity.
  - split.
    + unfold Manual.revealAll. rewrite length_imap.
      eapply lookup_lt_Some; eassumption.
    + intros j d Hd. unfold Manual.revealAll in Hd.
      rewrite list_lookup_imap in Hd.
      destruct (Manual.doors st !! j); [| discriminate].
      simpl in Hd. injection Hd as <-. simpl. apply bool_decide_eq_true.
  - unfold Manual.revealAll. apply hasPrize_imap. reflexivity.
  - f_equal.
    destruct (Z.eqb_spec (Z.of_nat clickedIndex) (Z.of_nat initialPick)) as [E | E];
      simpl; symmetry.
    + apply bool_decide_eq_false. lia.
    + apply bool_decide_eq_true. lia.
Qed.

Lemma finalize_reveals_all_witness :
  let st := Manual.mkState
              [Manual.mkDoor false false true; Manual.mkDoor true false false;
               Manual.mkDoor false true false]
              Manual.revealed Manual.revealedMessage (Manual.mkStats 0 0 0) in
  exists st' : Manual.ManualState,
    Manual.handleDoorClick 1 st = Returns st' /\
    Manual.message st' = "바꿔서 이겼습니다!" /\
    Forall (fun d => Manual.isOpen d = true) (Manual.doors st').
Proof.
  intros st.
  destruct (finalize_reveals_all st 0 1 (Manual.mkDoor true false false))
    as (st' & Hrun & _ & Hopen & _ & _ & Hmsg).
  - reflexivity.
  - split; [simpl; lia |].
    intros [| [| [| j]]] d Hj; simpl in Hj; try discriminate;
      injection Hj as <-; simpl; split; intros;
      first [reflexivity | discriminate | exfalso; lia].
  - reflexivity.
  - reflexivity.
  - exists st'. split; [exact Hrun |]. split; [exact Hmsg | exact Hopen].
Defined.

(** X8. No click and no host timer ever moves a prize or changes the
    number of doors: only a new game replaces the board. *)
Theorem prizes_never_move (n p : nat) (a : Manual.Action)
  (st st' : Manual.ManualState) :
  Manual.perform n p a st = Returns st' ->
  (forall rs, a <> Manual.NewGame rs) ->
  map Manual.hasPrize (Manual.doors st') = map Manual.hasPrize (Manual.doors st) /\
  length (Manual.doors st') = length (Manual.doors st).
Proof.
  intros Hrun Hnot.
  assert (Hmap : map Manual.hasPrize (Manual.doors st')
                 = map Manual.hasPrize (Manual.doors st)).
  { destruct a as [clickedIndex | u | rs]; simpl in Hrun.
    - unfold Manual.handleDoorClick in Hrun.
      destruct (Manual.gameState st);
        try (injection Hrun as <-; reflexivity);
        destruct (Manual.doors st !! clickedIndex) as [door |] eqn:Hdoor;
        try discriminate.
      + injection Hrun as <-. simpl. apply hasPrize_insert_selected, Hdoor.
      + destruct (Manual.isOpen door); injection Hrun as <-; [reflexivity |].
        simpl. unfold Manual.revealAll. apply hasPrize_imap. reflexivity.
    - injection Hrun as <-. simpl. unfold Manual.revealDoors.
      apply hasPrize_imap. reflexivity.
    - destruct (Hnot rs eq_refl). }
  split; [exact Hmap |].
  rewrite <- (length_map Manual.hasPrize (Manual.doors st')), Hmap.
  apply length_map.
Qed.

Lemma prizes_never_move_witness :
  exists st' : Manual.ManualState,
    Manual.perform 4 2 (Manual.HostTimer (sampleFor 0 2))
      (Manual.mkState twoPrizeBoard Manual.picked "" (Manual.mkStats 0 0 0))
    = Returns st' /\
    map Manual.hasPrize (Manual.doors st') = [true; true; false; false].
Proof.
  eexists. split; [reflexivity |].
  apply (prizes_never_move 4 2 (Manual.HostTimer (sampleFor 0 2))
           (Manual.mkState twoPrizeBoard Manual.picked "" (Manual.mkStats 0 0 0))).
  - reflexivity.
  - discriminate.
Defined.

(** X9. For an accepted configuration, mounting the component and every
    new game give, whenever they return, the initial state with a fresh
    board of [n] doors and [p] prizes and the prompt to pick a door; a new
    game keeps the counters. With fewer than 2^32 doors a new game does
    return once its draws have hit [p] different doors; with 2^32 doors or
    more both mounting and a new game throw. *)
Theorem new_game_gives_fresh_board (n p : nat) (rs : list Sample)
  (st : Manual.ManualState) :
  Config.validate (Some (Z.of_nat n)) (Some (Z.of_nat p)) = "" ->
  (forall st' rs',
      Manual.resetManualGame n p rs st = Returns (st', rs') \/
      Manual.mount n p rs = Returns (st', rs') ->
      Manual.gameState st' = Manual.initial /\
      fresh (Manual.doors st') /\
      length (Manual.doors st') = n /\ prizeDoors (Manual.doors st') = p /\
      Manual.message st' = Manual.pickMessage n) /\
  ((Z.of_nat n < Manual.arrayLengthLimit)%Z -> hitsDistinct n p rs ->
   exists st' rs', Manual.resetManualGame n p rs st = Returns (st', rs') /\
                   Manual.manualStats st' = Manual.manualStats st) /\
  ((Manual.arrayLengthLimit <= Z.of_nat n)%Z ->
   Manual.resetManualGame n p rs st = Throws /\ Manual.mount n p rs = Throws).
Proof.
  intros Hvalid. apply validate_nat in Hvalid as (Hn & Hp & Hgap).
  assert (Hreset : forall r s s' r',
             Manual.resetManualGame n p r s = Returns (s', r') ->
             Manual.gameState s' = Manual.initial /\
             fresh (Manual.doors s') /\
             length (Manual.doors s') = n /\ prizeDoors (Manual.doors s') = p /\
             Manual.message s' = Manual.pickMessage n).
  { intros r s s' r'. unfold Manual.resetManualGame.
    destruct (Manual.setupDoors n p r) as [[ds r1] | |] eqn:Hsetup;
      simpl; try discriminate.
    intros H. injection H as <- <-. simpl.
    apply setupDoors_exact in Hsetup as (Hl & Hc & Hf). auto. }
  split; [| split].
  - intros st' rs' [H | H]; [apply (Hreset _ _ _ _ H) |].
    unfold Manual.mount in H.
    destruct (Manual.setupDoors n p rs) as [[ds r1] | |]; simpl in H;
      try discriminate.
    apply (Hreset _ _ _ _ H).
  - intros Hlim Hhit.
    destruct (setupDoors_returns n p rs ltac:(lia) Hlim ltac:(lia) Hhit)
      as (board & rest & Hsetup).
    unfold Manual.resetManualGame. rewrite Hsetup. simpl. eauto.
  - intros Hbig. unfold Manual.resetManualGame, Manual.mount.
    rewrite (setupDoors_out_of_range n p rs Hbig). split; reflexivity.
Qed.

Lemma new_game_gives_fresh_board_witness :
  let st := Manual.mkState [] Manual.finished "" (Manual.mkStats 1 2 5) in
  exists st' rs',
    Manual.resetManualGame 3 1 [sampleFor 2 3] st = Returns (st', rs') /\
    Manual.gameState st' = Manual.initial /\
    prizeDoors (Manual.doors st') = 1.
Proof.
  intros st.
  destruct (new_game_gives_fresh_board 3 1 [sampleFor 2 3] st eq_refl)
    as [Hshape _].
  eexists _, _. split; [reflexivity |].
  destruct (Hshape _ _ (or_introl eq_refl)) as (Hs & _ & _ & Hc & _).
  split; [exact Hs | exact Hc].
Defined.

(** ** More of the simulated trial *)

Lemma filter_ne_absent (l : list nat) (x : nat) :
  x ∉ l -> filter (fun y => y ≠ x) l = l.
Proof.
  induction l as [| b l IH]; intros Hx; [reflexivity |].
  apply not_elem_of_cons in Hx as [Hb Hl].
  rewrite filter_cons, decide_True by congruence. f_equal. apply IH, Hl.
Qed.

(** Entries passing a filter at pairwise different positions are counted
    by the filter. *)
Lemma positions_le_filter {A : Type} (P : A -> Prop)
  `{!forall x, Decision (P x)} (l : list A) :
  forall positions : list nat,
    NoDup positions ->
    (forall i, i ∈ positions -> exists x, l !! i = Some x /\ P x) ->
    length positions <= length (filter P l).
Proof.
  induction l as [| a l IH]; intros positions Hnd Hall.
  - destruct positions as [| i t]; [simpl; lia |].
    destruct (Hall i) as (x & Hx & _); [left | discriminate].
  - set (rest := filter (fun y => y ≠ 0) positions).
    assert (Hrest : length (Nat.pred <$> rest) <= length (filter P l)).
    { apply IH.
      - apply NoDup_fmap_2_strong; [| apply NoDup_filter, Hnd].
        intros x y Hx Hy. subst rest.
        apply list_elem_of_filter in Hx as [Hx _].
        apply list_elem_of_filter in Hy as [Hy _]. lia.
      - intros i Hi. apply list_elem_of_fmap in Hi as (j & -> & Hj).
        subst rest. apply list_elem_of_filter in Hj as [Hj0 Hj].
        destruct (Hall j Hj) as (x & Hx & HP).
        destruct j as [| j]; [contradiction |]. simpl in *. eauto. }
    rewrite length_fmap in Hrest. rewrite filter_cons.
    destruct (decide (P a)) as [Ha | Ha]; simpl.
    + pose proof (NoDup_filter_ne_length positions 0 Hnd) as Hone.
      subst rest. lia.
    + assert (H0 : 0 ∉ positions).
      { intros H0. destruct (Hall 0 H0) as (x & Hx & HP).
        simpl in Hx. injection Hx as <-. contradiction. }
      subst rest. rewrite (filter_ne_absent positions 0 H0) in Hrest. exact Hrest.
Qed.

Lemma buildBoard_exact (n p : nat) (rs rest : list Sample) (cells : list bool) :
  0 < n -> Batch.buildBoard n p rs = Returns (cells, rest) ->
  length cells = n /\ prizeCells cells = p.
Proof.
  intros Hn. rewrite (buildBoard_placePrizes n p rs Hn).
  destruct (Manual.placePrizes n p (replicate n Manual.closedDoor) 0 rs)
    as [[board r] | |] eqn:Hplace; simpl; try discriminate.
  intros H. injection H as <- <-.
  apply placePrizes_exact in Hplace as (Hl & Hc & _);
    [| apply prizeDoors_replicate | lia | apply fresh_replicate].
  rewrite length_replicate in Hl.
  rewrite prizeCells_hasPrize, length_map. auto.
Qed.

Lemma switchable_elem (n pick : nat) (hostOpened : option nat) (k : nat) :
  k ∈ Batch.switchable n pick hostOpened <->
  k < n /\ k <> pick /\ Some k <> hostOpened.
Proof.
  unfold Batch.switchable, Batch.otherDoors.
  rewrite !list_elem_of_filter, elem_of_seq. intuition lia.
Qed.

(** With three doors or more there is a door to switch to. *)
Lemma switchable_nonempty (n pick : nat) (hostOpened : option nat) :
  3 <= n -> Batch.switchable n pick hostOpened <> [].
Proof.
  intros Hn.
  assert (Hex : exists k, k < 3 /\ k <> pick /\ Some k <> hostOpened).
  { destruct hostOpened as [g |].
    - destruct (decide (0 = pick)), (decide (0 = g)),
        (decide (1 = pick)), (decide (1 = g));
        first [ exists 0; repeat split; (lia || congruence)
              | exists 1; repeat split; (lia || congruence)
              | exists 2; repeat split; (lia || congruence) ].
    - destruct (decide (0 = pick));
        [exists 1 | exists 0]; repeat split; (lia || congruence). }
  destruct Hex as (k & Hk & Hp & Hg).
  assert (Hin : k ∈ Batch.switchable n pick hostOpened)
    by (apply switchable_elem; repeat split; (lia || assumption)).
  intros E. rewrite E in Hin. apply elem_of_nil in Hin. exact Hin.
Qed.

(** X10. The door the simulated player switches to is a door of the board
    that is neither the original pick nor the door the host opened; with
    three doors or more such a door always exists, so the read of
    [switchable] at a random index is never [undefined]. *)
Theorem switch_avoids_pick_and_opened (n playerChoice : nat)
  (hostOpened : option nat) :
  (forall r k : nat,
      Batch.switchable n playerChoice hostOpened !! r = Some k ->
      k < n /\ k <> playerChoice /\ Some k <> hostOpened) /\
  (3 <= n ->
   forall u : Sample,
     let candidates := Batch.switchable n playerChoice hostOpened in
     exists k : nat, candidates !! randomIndex u (length candidates) = Some k).
Proof.
  split.
  - intros r k Hk. apply list_elem_of_lookup_2, switchable_elem in Hk. exact Hk.
  - intros Hn u candidates. apply random_entry, switchable_nonempty, Hn.
Qed.

Lemma switch_avoids_pick_and_opened_witness :
  Batch.switchable 3 0 (Some 2) !! 0 = Some 1 /\
  (1 < 3 /\ 1 <> 0 /\ Some 1 <> Some 2) /\
  exists k : nat,
    Batch.switchable 3 0 (Some 2)
      !! randomIndex (sampleFor 0 1) (length (Batch.switchable 3 0 (Some 2)))
    = Some k.
Proof.
  destruct (switch_avoids_pick_and_opened 3 0 (Some 2)) as [Hsafe Hdef].
  split; [reflexivity |]. split.
  - apply (Hsafe 0 1). reflexivity.
  - apply (Hdef ltac:(lia) (sampleFor 0 1)).
Defined.

(** When exactly two doors hold no prize and the pick is one of them, the
    host opens the other and every door left to switch to holds a prize. *)
Lemma switch_candidates_all_prizes (n p : nat) (cs : list bool)
  (pick r k : nat) (g : nat) :
  length cs = n -> prizeCells cs = p -> n = p + 2 ->
  pick < n -> Batch.truthyAt cs pick = false ->
  Batch.hostOpenedAt n cs pick r = Some g ->
  k ∈ Batch.switchable n pick (Some g) ->
  Batch.truthyAt cs k = true.
Proof.
  intros Hlen Hprizes Hn Hpick Hgoat Hg Hk.
  unfold Batch.hostOpenedAt in Hg.
  apply list_elem_of_lookup_2, hostOpenable_elem in Hg as (Hgn & Hgp & Hgc).
  apply switchable_elem in Hk as (Hkn & Hkp & Hkg).
  destruct (Batch.truthyAt cs k) eqn:Hkc; [reflexivity | exfalso].
  assert (Hcount : 3 <= emptyCells cs).
  { unfold emptyCells.
    apply (positions_le_filter (fun c => c = false) cs [pick; g; k]).
    - repeat (apply NoDup_cons; split);
        [| | | apply NoDup_nil; exact I].
      + intros H. apply elem_of_cons in H as [-> | H]; [congruence |].
        apply list_elem_of_singleton in H. congruence.
      + intros H. apply list_elem_of_singleton in H. congruence.
      + apply not_elem_of_nil.
    - intros i Hi.
      assert (Hcell : i < n /\ Batch.truthyAt cs i = false).
      { repeat (apply elem_of_cons in Hi as [-> | Hi]); auto.
        apply elem_of_nil in Hi. contradiction. }
      destruct Hcell as [Hin Hic]. unfold Batch.truthyAt in Hic.
      destruct (lookup_lt_is_Some_2 cs i) as [c Hc]; [lia |].
      rewrite Hc in Hic. simpl in Hic. subst c. eauto. }
  rewrite emptyCells_count in Hcount. lia.
Qed.

Lemma scoreSwitch_empty_pick (n p : nat) (currentDoors : list bool)
  (playerChoice : nat) (localSwitchWins : Z) (u1 u2 : Sample)
  (rs : list Sample) :
  1 <= p -> n = p + 2 ->
  length currentDoors = n -> prizeCells currentDoors = p ->
  playerChoice < n -> Batch.truthyAt currentDoors playerChoice = false ->
  Batch.scoreSwitch n currentDoors playerChoice localSwitchWins (u1 :: u2 :: rs)
  = Returns ((localSwitchWins + 1)%Z, rs).
Proof.
  intros Hp Hn Hlen Hprizes Hpick Hgoat.
  unfold Batch.scoreSwitch. rewrite Hgoat. simpl.
  assert (Hne : Batch.hostOpenable n currentDoors playerChoice <> []).
  { destruct (spare_empty_cell currentDoors playerChoice) as (j & Hj & Hc);
      [lia |].
    assert (Hin : j ∈ Batch.hostOpenable n currentDoors playerChoice).
    { apply hostOpenable_elem. split; [apply lookup_lt_Some in Hc; lia |].
      split; [exact Hj |]. unfold Batch.truthyAt. rewrite Hc. reflexivity. }
    intros E. rewrite E in Hin. apply elem_of_nil in Hin. exact Hin. }
  destruct (random_entry _ u1 Hne) as [g Hg].
  unfold Batch.hostOpenedAt at 1 2. rewrite Hg.
  destruct (random_entry (Batch.switchable n playerChoice (Some g)) u2)
    as [k Hk]; [apply switchable_nonempty; lia |].
  rewrite Hk. simpl.
  rewrite (switch_candidates_all_prizes n p currentDoors playerChoice
             (randomIndex u1 (length (Batch.hostOpenable n currentDoors playerChoice)))
             k g); auto.
  eapply list_elem_of_lookup_2, Hk.
Qed.

(** X11. When the board has exactly two doors more than prizes and the
    simulated player has picked a door without a prize, the switch always
    wins: the host must open the only other prize-free door, so every door
    left to switch to holds a prize and the switch counter goes up by 1,
    whatever the two random draws are. *)
Theorem switch_from_empty_pick_wins (n p : nat) (currentDoors : list bool)
  (playerChoice : nat) (localSwitchWins : Z) (u1 u2 : Sample)
  (rs : list Sample) :
  1 <= p -> n = p + 2 ->
  length currentDoors = n -> prizeCells currentDoors = p ->
  playerChoice < n -> Batch.truthyAt currentDoors playerChoice = false ->
  Batch.scoreSwitch n currentDoors playerChoice localSwitchWins (u1 :: u2 :: rs)
  = Returns ((localSwitchWins + 1)%Z, rs).
Proof.
  intros Hp Hn Hlen Hprizes Hpick Hgoat.
  apply (scoreSwitch_empty_pick n p); assumption.
Qed.

Lemma switch_from_empty_pick_wins_witness :
  Batch.scoreSwitch 3 [false; true; false] 0 7 [sampleFor 0 1; sampleFor 0 1]
  = Returns (8%Z, []).
Proof.
  apply (switch_from_empty_pick_wins 3 1 [false; true; false] 0 7
           (sampleFor 0 1) (sampleFor 0 1) []);
    (reflexivity || lia).
Defined.

(** What a trial that returns has done to the two counters. *)
Lemma trial_counters (n p : nat) (stay switch stay' switch' : Z) (won : bool)
  (rs rs' : list Sample) :
  Batch.trial n p stay switch rs = Returns (stay', switch', won, rs') ->
  (won = true /\ stay' = (stay + 1)%Z /\ switch' = switch) \/
  (won = false /\ stay' = stay /\
   (switch' = switch \/ switch' = (switch + 1)%Z)).
Proof.
  unfold Batch.trial.
  destruct (Batch.buildBoard n p rs) as [[cs rs1] | |]; simpl; try discriminate.
  destruct rs1 as [| u rs2]; simpl; try discriminate.
  unfold Batch.scoreSwitch.
  destruct (Batch.truthyAt cs (randomIndex u n)) eqn:Hpick; simpl.
  - intros H. injection H as <- <- <- <-. left. auto.
  - destruct rs2 as [| u1 [| u2 rs3]]; simpl; try discriminate.
    intros H. injection H as <- <- <- <-. right.
    destruct (Batch.switchWon _ _); auto.
Qed.

(** X12. A simulated trial never credits both strategies: when the picked
    door holds a prize the stay counter goes up by 1 and the switch counter
    is untouched, and otherwise the stay counter is untouched and the
    switch counter goes up by at most 1. *)
Theorem trial_credits_at_most_one_strategy (n p : nat)
  (stay switch stay' switch' : Z) (won : bool) (rs rs' : list Sample) :
  Batch.trial n p stay switch rs = Returns (stay', switch', won, rs') ->
  (won = true -> stay' = (stay + 1)%Z /\ switch' = switch) /\
  (won = false -> stay' = stay /\ (switch <= switch' <= switch + 1)%Z) /\
  (stay + switch <= stay' + switch' <= stay + switch + 1)%Z.
Proof.
  intros H. apply trial_counters in H.
  destruct H as [(-> & -> & ->) | (-> & -> & [-> | ->])];
    repeat split; intros; try discriminate; lia.
Qed.

Lemma trial_credits_at_most_one_strategy_witness :
  Batch.trial 4 2 3 5 [sampleFor 0 4; sampleFor 1 4; sampleFor 0 4]
  = Returns (4%Z, 5%Z, true, []) /\
  (3 + 5 <= 4 + 5 <= 3 + 5 + 1)%Z.
Proof.
  split; [reflexivity |].
  apply (trial_credits_at_most_one_strategy 4 2 3 5 4 5 true
           [sampleFor 0 4; sampleFor 1 4; sampleFor 0 4] []).
  reflexivity.
Defined.

(** With exactly two doors more than prizes, a trial credits exactly one
    strategy. *)
Lemma trial_two_spare (n p : nat) (stay switch stay' switch' : Z) (won : bool)
  (rs rs' : list Sample) :
  1 <= p -> n = p + 2 ->
  Batch.trial n p stay switch rs = Returns (stay', switch', won, rs') ->
  (stay' + switch' = stay + switch + 1)%Z.
Proof.
  intros Hp Hn. unfold Batch.trial.
  destruct (Batch.buildBoard n p rs) as [[cs rs1] | |] eqn:Hboard;
    simpl; try discriminate.
  apply buildBoard_exact in Hboard as [Hlen Hprizes]; [| lia].
  destruct rs1 as [| u rs2]; simpl; try discriminate.
  assert (Hpick : randomIndex u n < n) by (apply randomIndex_lt; lia).
  destruct (Batch.truthyAt cs (randomIndex u n)) eqn:Hcell.
  - rewrite scoreSwitch_prize_pick by exact Hcell. simpl.
    intros H. injection H as <- <- _ _. lia.
  - destruct rs2 as [| u1 [| u2 rs3]].
    + unfold Batch.scoreSwitch. rewrite Hcell. simpl. discriminate.
    + unfold Batch.scoreSwitch. rewrite Hcell. simpl. discriminate.
    + rewrite (scoreSwitch_empty_pick n p) by assumption. simpl.
      intros H. injection H as <- <- _ _. lia.
Qed.

Section RunCounters.
Variables n p simulations : nat.
Variable speed : Z.
Variable stopDuring : nat -> bool.

#[local] Abbreviation loop' := (Batch.forLoop n p simulations speed stopDuring).

Lemma forLoop_observed_bounds (remaining : nat) :
  forall (i : nat) (stay switch : Z) (stopped : bool) (ui : Batch.SimUi)
         (rs : list Sample) (k : nat) (s : Batch.SimUi),
    (0 <= stay)%Z -> (0 <= switch)%Z -> (stay + switch <= Z.of_nat i - 1)%Z ->
    (loop' remaining i stay switch stopped ui rs).1 !! k = Some s ->
    (0 <= Batch.wins (Batch.stayStats s))%Z /\
    (0 <= Batch.wins (Batch.switchStats s))%Z /\
    (Batch.wins (Batch.stayStats s) + Batch.wins (Batch.switchStats s)
     <= Z.of_nat (i + k))%Z.
Proof.
  induction remaining as [| remaining IH];
    intros i stay switch stopped ui rs k s Hs Hw Hsum; simpl; [discriminate |].
  destruct stopped; [discriminate |].
  destruct (Batch.trial n p stay switch rs) as [[[[stay' switch'] won] rs'] | |]
    eqn:Htrial; simpl; [| discriminate | discriminate].
  apply trial_counters in Htrial.
  destruct k as [| k]; simpl.
  - intros H. injection H as <-. simpl. lia.
  - intros H. apply IH in H; [| lia | lia | lia]. 
    replace (i + S k) with (S i + k) by lia. exact H.
Qed.

Lemma forLoop_observed_two_spare (remaining : nat) :
  1 <= p -> n = p + 2 ->
  forall (i : nat) (stay switch : Z) (stopped : bool) (ui : Batch.SimUi)
         (rs : list Sample) (k : nat) (s : Batch.SimUi),
    (stay + switch = Z.of_nat i - 1)%Z ->
    (loop' remaining i stay switch stopped ui rs).1 !! k = Some s ->
    (Batch.wins (Batch.stayStats s) + Batch.wins (Batch.switchStats s)
     = Z.of_nat (i + k))%Z.
Proof.
  intros Hp Hn. induction remaining as [| remaining IH];
    intros i stay switch stopped ui rs k s Hsum; simpl; [discriminate |].
  destruct stopped; [discriminate |].
  destruct (Batch.trial n p stay switch rs) as [[[[stay' switch'] won] rs'] | |]
    eqn:Htrial; simpl; [| discriminate | discriminate].
  apply (trial_two_spare n p _ _ _ _ _ _ _ Hp Hn) in Htrial.
  destruct k as [| k]; simpl.
  - intros H. injection H as <-. simpl. lia.
  - intros H. apply IH in H; [| lia].
    replace (i + S k) with (S i + k) by lia. exact H.
Qed.

End RunCounters.

(** X13. After every completed trial of a run all four counters shown are
    non-negative, and the wins of the two strategies together never exceed
    the number of trials completed. *)
Theorem observed_counters_are_consistent (n p simulations : nat) (speed : Z)
  (stopDuring : nat -> bool) (rs : list Sample) (k : nat) (ui : Batch.SimUi) :
  Batch.observed (Batch.runSimulation n p simulations speed stopDuring rs) !! k
  = Some ui ->
  (0 <= Batch.wins (Batch.stayStats ui))%Z /\
  (0 <= Batch.losses (Batch.stayStats ui))%Z /\
  (0 <= Batch.wins (Batch.switchStats ui))%Z /\
  (0 <= Batch.losses (Batch.switchStats ui))%Z /\
  (Batch.wins (Batch.stayStats ui) + Batch.wins (Batch.switchStats ui)
   <= Z.of_nat (S k))%Z.
Proof.
  unfold Batch.runSimulation. simpl. intros H.
  pose proof (forLoop_observed_played n p simulations speed stopDuring
                _ _ _ _ _ _ _ _ _ H) as [Hstay Hswitch].
  apply forLoop_observed_bounds in H; [| lia | lia | lia].
  unfold played in *. simpl in *. lia.
Qed.

Lemma observed_counters_are_consistent_witness :
  exists ui : Batch.SimUi,
    Batch.observed (Batch.runSimulation 3 1 2 100 (fun _ => false)
                      (replicate 4 (mkSample 0 0))) !! 1 = Some ui /\
    (0 <= Batch.losses (Batch.switchStats ui))%Z.
Proof.
  eexists. split; [reflexivity |].
  apply (observed_counters_are_consistent 3 1 2 100 (fun _ => false)
           (replicate 4 (mkSample 0 0)) 1).
  reflexivity.
Defined.

(** X14. With exactly two doors more than prizes (the classic 3 doors and
    1 prize among them), every simulated trial is won by exactly one of
    the two strategies: after every completed trial the stay wins and the
    switch wins add up to the number of trials completed, so the switch
    wins are exactly the stay losses. *)
Theorem two_spare_doors_one_winner_per_trial (n p simulations : nat)
  (speed : Z) (stopDuring : nat -> bool) (rs : list Sample) (k : nat)
  (ui : Batch.SimUi) :
  1 <= p -> n = p + 2 ->
  Batch.observed (Batch.runSimulation n p simulations speed stopDuring rs) !! k
  = Some ui ->
  (Batch.wins (Batch.stayStats ui) + Batch.wins (Batch.switchStats ui)
   = Z.of_nat (S k))%Z /\
  Batch.wins (Batch.switchStats ui) = Batch.losses (Batch.stayStats ui).
Proof.
  intros Hp Hn. unfold Batch.runSimulation. simpl. intros H.
  pose proof (forLoop_observed_played n p simulations speed stopDuring
                _ _ _ _ _ _ _ _ _ H) as [Hstay _].
  apply (forLoop_observed_two_spare n p simulations speed stopDuring _ Hp Hn)
    in H; [| lia].
  unfold played in *. simpl in *. lia.
Qed.

Lemma two_spare_doors_one_winner_per_trial_witness :
  let run := Batch.runSimulation 3 1 2 100 (fun _ => false)
               [sampleFor 0 3; sampleFor 0 3;
                sampleFor 1 3; sampleFor 0 3; sampleFor 0 1; sampleFor 0 1] in
  exists ui : Batch.SimUi,
    Batch.observed run !! 1 = Some ui /\
    Batch.wins (Batch.stayStats ui) = 1%Z /\
    Batch.wins (Batch.switchStats ui) = Batch.losses (Batch.stayStats ui).
Proof.
  intros run. eexists. split; [reflexivity |]. split; [reflexivity |].
  apply (two_spare_doors_one_winner_per_trial 3 1 2 100 (fun _ => false)
           [sampleFor 0 3; sampleFor 0 3;
            sampleFor 1 3; sampleFor 0 3; sampleFor 0 1; sampleFor 0 1] 1);
    (reflexivity || lia).
Defined.

(** ** More of the simulation loop *)

Lemma fillPrizes_no_throw (n p : nat) (rs : list Sample) :
  forall (cs : list bool) (placed : nat),
    Batch.fillPrizes n p cs placed rs <> Throws.
Proof.
  induction rs as [| u rs IH]; intros cs placed; simpl;
    destruct (placed <? p); try discriminate.
  destruct (Batch.truthyAt cs (randomIndex u n)); apply IH.
Qed.

Lemma trial_no_throw (n p : nat) (stay switch : Z) (rs : list Sample) :
  Batch.trial n p stay switch rs <> Throws.
Proof.
  unfold Batch.trial, Batch.buildBoard.
  pose proof (fillPrizes_no_throw n p rs (replicate n false) 0) as Hfill.
  destruct (Batch.fillPrizes n p (replicate n false) 0 rs) as [[cs rs1] | |];
    simpl; try discriminate; [| contradiction].
  destruct rs1 as [| u rs2]; simpl; try discriminate.
  unfold Batch.scoreSwitch.
  destruct (Batch.truthyAt cs (randomIndex u n)); simpl; try discriminate.
  destruct rs2 as [| u1 [| u2 rs3]]; simpl; discriminate.
Qed.

(** Quotients by the interval length go up by one exactly at the multiples
    of the interval. *)
Lemma div_step (i c : nat) :
  1 <= c -> 1 <= i ->
  (i mod c = 0 -> i / c = S ((i - 1) / c)) /\
  (i mod c <> 0 -> i / c = (i - 1) / c).
Proof.
  intros Hc Hi.
  pose proof (Nat.div_mod_eq (i - 1) c) as Hdm.
  pose proof (Nat.mod_upper_bound (i - 1) c ltac:(lia)) as Hr.
  set (q := (i - 1) / c) in *. set (r := (i - 1) mod c) in *.
  destruct (decide (r + 1 = c)) as [Hfull | Hpart].
  - assert (Hq : S q = i / c) by (apply (Nat.div_unique i c (S q) 0); nia).
    assert (Hm : 0 = i mod c) by (apply (Nat.mod_unique i c (S q) 0); nia).
    split; [intros _; lia | intros Hne; lia].
  - assert (Hq : q = i / c) by (apply (Nat.div_unique i c q (r + 1)); nia).
    assert (Hm : r + 1 = i mod c)
      by (apply (Nat.mod_unique i c q (r + 1)); nia).
    split; [intros H0; lia | intros _; lia].
Qed.

Lemma ceilDiv_covers (a b : nat) : 1 <= b -> a <= b * Batch.ceilDiv a b.
Proof.
  intros Hb. unfold Batch.ceilDiv.
  pose proof (Nat.div_mod_eq (a + (b - 1)) b) as Hdm.
  pose proof (Nat.mod_upper_bound (a + (b - 1)) b ltac:(lia)) as Hr.
  lia.
Qed.

Lemma pushMarker_length (l : list string) (x : string) :
  length (Batch.pushMarker l x) = S (Nat.min (length l) 299).
Proof.
  unfold Batch.pushMarker. rewrite length_app, length_drop. simpl. lia.
Qed.

(** X15. The marker buffer keeps at most 300 entries: adding a marker keeps
    the newest 299 old entries in their order, drops the older ones and
    puts the new marker last. *)
Theorem pushMarker_keeps_newest (prevData : list string) (marker : string) :
  let kept := Nat.min (length prevData) 299 in
  length (Batch.pushMarker prevData marker) = S kept /\
  length (Batch.pushMarker prevData marker) <= 300 /\
  Batch.pushMarker prevData marker !! kept = Some marker /\
  (forall j, j < kept ->
             Batch.pushMarker prevData marker !! j
             = prevData !! (length prevData - kept + j)).
Proof.
  intros kept. subst kept.
  pose proof (pushMarker_length prevData marker) as Hlen.
  split; [exact Hlen |]. split; [lia |].
  unfold Batch.pushMarker.
  assert (Hdrop : length (drop (length prevData - 299) prevData)
                  = Nat.min (length prevData) 299)
    by (rewrite length_drop; lia).
  split.
  - rewrite lookup_app_r by lia. rewrite Hdrop, Nat.sub_diag. reflexivity.
  - intros j Hj. rewrite lookup_app_l by lia. rewrite lookup_drop.
    f_equal. lia.
Qed.

Lemma pushMarker_keeps_newest_witness :
  Batch.pushMarker (replicate 300 "win") "loss" !! 299 = Some "loss" /\
  Batch.pushMarker (replicate 300 "win") "loss" !! 0
  = replicate 300 "win" !! (300 - 299 + 0).
Proof.
  destruct (pushMarker_keeps_newest (replicate 300 "win") "loss")
    as (_ & _ & Hlast & Hold).
  split; [exact Hlast |].
  apply (Hold 0). vm_compute. lia.
Defined.

Section RunShape.
Variables n p simulations : nat.
Variable speed : Z.

#[local] Abbreviation run_loop stop :=
  (Batch.forLoop n p simulations speed stop).

Lemma forLoop_length_le (stop : nat -> bool) (remaining : nat) :
  forall (i : nat) (stay switch : Z) (stopped : bool) (ui : Batch.SimUi)
         (rs : list Sample),
    length (run_loop stop remaining i stay switch stopped ui rs).1 <= remaining.
Proof.
  induction remaining as [| remaining IH]; intros i stay switch stopped ui rs;
    simpl; [lia |].
  destruct stopped; [simpl; lia |].
  destruct (Batch.trial n p stay switch rs) as [[[[stay' switch'] won] rs'] | |];
    simpl; try lia.
  specialize (IH (S i) stay' switch'
                 (Batch.sleeps simulations speed i && stop i)
                 (if Batch.sleeps simulations speed i && stop i
                  then Batch.handleStopSimulation
                         (Batch.afterTrial simulations i stay' switch' won ui)
                  else Batch.afterTrial simulations i stay' switch' won ui)
                 rs').
  lia.
Qed.

Lemma forLoop_no_throw (stop : nat -> bool) (remaining : nat) :
  forall (i : nat) (stay switch : Z) (stopped : bool) (ui : Batch.SimUi)
         (rs : list Sample),
    (run_loop stop remaining i stay switch stopped ui rs).2 <> Throws.
Proof.
  induction remaining as [| remaining IH]; intros i stay switch stopped ui rs;
    simpl; [discriminate |].
  destruct stopped; [discriminate |].
  pose proof (trial_no_throw n p stay switch rs) as Htrial.
  destruct (Batch.trial n p stay switch rs) as [[[[stay' switch'] won] rs'] | |];
    simpl; [apply IH | contradiction | discriminate].
Qed.

(** Without an effective stop request, a loop that returns has run every
    remaining trial. *)
Lemma forLoop_complete (stop : nat -> bool) (remaining : nat) :
  (forall i, Batch.sleeps simulations speed i = true -> stop i = false) ->
  forall (i : nat) (stay switch : Z) (ui uf : Batch.SimUi) (rs : list Sample),
    (run_loop stop remaining i stay switch false ui rs).2 = Returns uf ->
    length (run_loop stop remaining i stay switch false ui rs).1 = remaining.
Proof.
  intros Hquiet. induction remaining as [| remaining IH];
    intros i stay switch ui uf rs; simpl; [reflexivity |].
  destruct (Batch.trial n p stay switch rs) as [[[[stay' switch'] won] rs'] | |];
    simpl; try discriminate.
  assert (Hno : Batch.sleeps simulations speed i && stop i = false).
  { destruct (Batch.sleeps simulations speed i) eqn:Hs; [| reflexivity].
    simpl. apply Hquiet, Hs. }
  rewrite Hno. intros H. f_equal. eapply IH, H.
Qed.

(** At full speed the loop never sleeps, so stop requests change nothing. *)
Lemma forLoop_full_speed (stop1 stop2 : nat -> bool) (remaining : nat) :
  (100 <= speed)%Z ->
  forall (i : nat) (stay switch : Z) (stopped : bool) (ui : Batch.SimUi)
         (rs : list Sample),
    run_loop stop1 remaining i stay switch stopped ui rs
    = run_loop stop2 remaining i stay switch stopped ui rs.
Proof.
  intros Hspeed.
  assert (Hsleep : forall i, Batch.sleeps simulations speed i = false).
  { intros i. unfold Batch.sleeps, Batch.delay.
    replace (Z.max 0 (100 - speed)) with 0%Z by lia.
    apply andb_false_r. }
  induction remaining as [| remaining IH]; intros i stay switch stopped ui rs;
    simpl; [reflexivity |].
  destruct stopped; [reflexivity |].
  destruct (Batch.trial n p stay switch rs) as [[[[stay' switch'] won] rs'] | |];
    try reflexivity.
  rewrite !Hsleep. simpl. rewrite IH. reflexivity.
Qed.

(** The marker buffer after trial [i] holds one marker per completed
    interval of [Math.ceil(simulations / 300)] trials. *)
Lemma forLoop_observed_markers (stop : nat -> bool) (remaining : nat) :
  1 <= simulations ->
  forall (i : nat) (stay switch : Z) (stopped : bool) (ui : Batch.SimUi)
         (rs : list Sample) (k : nat) (s : Batch.SimUi),
    1 <= i -> i + remaining <= S simulations ->
    length (Batch.animationData ui) = (i - 1) / Batch.ceilDiv simulations 300 ->
    Forall isMarker (Batch.animationData ui) ->
    (run_loop stop remaining i stay switch stopped ui rs).1 !! k = Some s ->
    length (Batch.animationData s) = (i + k) / Batch.ceilDiv simulations 300 /\
    Forall isMarker (Batch.animationData s).
Proof.
  intros Hsim.
  pose proof (ceilDiv_positive simulations 300 Hsim ltac:(lia)) as Hc.
  pose proof (ceilDiv_covers simulations 300 ltac:(lia)) as Hcover.
  set (c := Batch.ceilDiv simulations 300) in *.
  induction remaining as [| remaining IH];
    intros i stay switch stopped ui rs k s Hi Hrem Hlen Hall; simpl;
    [discriminate |].
  destruct stopped; [discriminate |].
  destruct (Batch.trial n p stay switch rs) as [[[[stay' switch'] won] rs'] | |];
    simpl; [| discriminate | discriminate].
  set (ui' := Batch.afterTrial simulations i stay' switch' won ui).
  assert (Hui' : length (Batch.animationData ui') = i / c /\
                 Forall isMarker (Batch.animationData ui')).
  { subst ui'. unfold Batch.afterTrial. cbn [Batch.animationData]. fold c.
    destruct (div_step i c Hc Hi) as [Hzero Hnonzero].
    destruct (Nat.eqb_spec (i mod c) 0) as [Hm | Hm].
    - split.
      + rewrite pushMarker_length, Hlen, (Hzero Hm).
        assert (i / c <= 300)
          by (apply Nat.Div0.div_le_upper_bound; lia).
        rewrite (Hzero Hm) in H. lia.
      + unfold Batch.pushMarker. apply Forall_app. split.
        * apply Forall_drop, Hall.
        * apply Forall_singleton. destruct won; [left | right]; reflexivity.
    - split; [rewrite Hlen, (Hnonzero Hm); reflexivity | exact Hall]. }
  destruct Hui' as [Hlen' Hall'].
  destruct k as [| k]; simpl.
  - intros H. injection H as <-. rewrite Nat.add_0_r. auto.
  - intros H. replace (i + S k) with (S i + k) by lia.
    eapply IH; [| | | | exact H]; try lia.
    + destruct (_ && _); simpl; replace (i - 0) with i by lia; exact Hlen'.
    + destruct (_ && _); simpl; exact Hall'.
Qed.

End RunShape.

Lemma runSimulation_observed_in_range (n p simulations : nat) (speed : Z)
  (stopDuring : nat -> bool) (rs : list Sample) (k : nat) (ui : Batch.SimUi) :
  Batch.observed (Batch.runSimulation n p simulations speed stopDuring rs) !! k
  = Some ui ->
  1 <= simulations /\ S k <= simulations.
Proof.
  unfold Batch.runSimulation. simpl. intros H.
  apply lookup_lt_Some in H.
  pose proof (forLoop_length_le n p simulations speed stopDuring simulations
                1 0%Z 0%Z false Batch.startUi rs).
  lia.
Qed.

Lemma runSimulation_final_played (n p simulations : nat) (speed : Z)
  (stopDuring : nat -> bool) (rs : list Sample) (ui : Batch.SimUi) :
  let run := Batch.runSimulation n p simulations speed stopDuring rs in
  Batch.final run = Returns ui ->
  played (Batch.stayStats ui) = Z.of_nat (length (Batch.observed run)) /\
  played (Batch.switchStats ui) = Z.of_nat (length (Batch.observed run)) /\
  Batch.progress ui = 100%float /\ Batch.isSimulating ui = false.
Proof.
  intros run. subst run. unfold Batch.runSimulation. simpl.
  set (loop := Batch.forLoop n p simulations speed stopDuring simulations 1 0 0
                 false Batch.startUi rs).
  destruct loop.2 as [uf | |] eqn:Hloop; simpl; try discriminate.
  intros H. injection H as <-. simpl.
  destruct (forLoop_final n p simulations speed stopDuring _ _ _ _ _ _ _ _ Hloop)
    as (-> & -> & _). fold loop.
  destruct (last loop.1) as [l |] eqn:Hlast; simpl.
  - rewrite last_lookup in Hlast.
    pose proof (lookup_lt_Some _ _ _ Hlast) as Hlt.
    apply (forLoop_observed_played n p simulations speed stopDuring) in Hlast.
    replace (1 + Init.Nat.pred (length loop.1)) with (length loop.1) in Hlast
      by lia.
    destruct Hlast. auto.
  - apply last_None in Hlast. rewrite Hlast. repeat split; reflexivity.
Qed.

(** X16. A run never performs more trials than asked for and never throws.
    If no stop request arrives while the loop sleeps and the run comes to
    its end, it has performed exactly [simulations] trials, both final
    counters account for all of them, the progress is 100 and the
    simulator is no longer marked as running. *)
Theorem run_without_stop_completes (n p simulations : nat) (speed : Z)
  (stopDuring : nat -> bool) (rs : list Sample) :
  let run := Batch.runSimulation n p simulations speed stopDuring rs in
  length (Batch.observed run) <= simulations /\
  Batch.final run <> Throws /\
  ((forall i, Batch.sleeps simulations speed i = true -> stopDuring i = false) ->
   forall ui : Batch.SimUi,
     Batch.final run = Returns ui ->
     length (Batch.observed run) = simulations /\
     played (Batch.stayStats ui) = Z.of_nat simulations /\
     played (Batch.switchStats ui) = Z.of_nat simulations /\
     Batch.progress ui = 100%float /\ Batch.isSimulating ui = false).
Proof.
  intros run.
  split; [apply forLoop_length_le |]. split.
  - subst run. unfold Batch.runSimulation. simpl.
    pose proof (forLoop_no_throw n p simulations speed stopDuring simulations
                  1 0%Z 0%Z false Batch.startUi rs) as Hno.
    destruct (_.2); simpl; congruence.
  - intros Hquiet ui Hfin.
    destruct (runSimulation_final_played n p simulations speed stopDuring rs ui
                Hfin) as (Hstay & Hswitch & Hprog & Hsim).
    assert (Hlen : length (Batch.observed run) = simulations).
    { subst run. unfold Batch.runSimulation in *. simpl in *.
      destruct (Batch.forLoop n p simulations speed stopDuring simulations 1 0 0
                  false Batch.startUi rs).2 as [uf | |] eqn:Hloop;
        simpl in Hfin; try discriminate.
      eapply forLoop_complete; [exact Hquiet | exact Hloop]. }
    fold run in Hstay, Hswitch. rewrite Hlen in Hstay, Hswitch. auto.
Qed.

Lemma run_without_stop_completes_witness :
  let run := Batch.runSimulation 3 1 2 50 (fun _ => false)
               (replicate 4 (mkSample 0 0)) in
  exists ui : Batch.SimUi,
    Batch.final run = Returns ui /\
    length (Batch.observed run) = 2 /\
    played (Batch.stayStats ui) = 2%Z.
Proof.
  intros run. eexists. split; [reflexivity |].
  destruct (run_without_stop_completes 3 1 2 50 (fun _ => false)
              (replicate 4 (mkSample 0 0))) as (_ & _ & Hdone).
  destruct (Hdone (fun i _ => eq_refl) _ eq_refl) as (Hlen & Hstay & _).
  split; [exact Hlen | exact Hstay].
Defined.

(** X17. At speed 100 or more the delay is 0 and the loop never sleeps, so
    a stop request cannot take effect: the run is the same whatever stop
    requests are made. *)
Theorem full_speed_run_ignores_stop (n p simulations : nat) (speed : Z)
  (stop1 stop2 : nat -> bool) (rs : list Sample) :
  (100 <= speed)%Z ->
  Batch.runSimulation n p simulations speed stop1 rs
  = Batch.runSimulation n p simulations speed stop2 rs.
Proof.
  intros Hspeed. unfold Batch.runSimulation.
  rewrite (forLoop_full_speed n p simulations speed stop1 stop2 simulations
             Hspeed).
  reflexivity.
Qed.

Lemma full_speed_run_ignores_stop_witness :
  Batch.runSimulation 3 1 2 100 (fun _ => true) (replicate 4 (mkSample 0 0))
  = Batch.runSimulation 3 1 2 100 (fun _ => false) (replicate 4 (mkSample 0 0)).
Proof.
  apply (full_speed_run_ignores_stop 3 1 2 100). lia.
Defined.

(** X18. After trial [i] of a run the marker buffer holds exactly one
    marker for each completed interval of [Math.ceil(simulations / 300)]
    trials, which is never more than 300: within a run no marker is ever
    dropped. Every entry is "win" or "loss". *)
Theorem marker_buffer_counts_intervals (n p simulations : nat) (speed : Z)
  (stopDuring : nat -> bool) (rs : list Sample) (k : nat) (ui : Batch.SimUi) :
  Batch.observed (Batch.runSimulation n p simulations speed stopDuring rs) !! k
  = Some ui ->
  length (Batch.animationData ui) = S k / Batch.ceilDiv simulations 300 /\
  length (Batch.animationData ui) <= 300 /\
  Forall isMarker (Batch.animationData ui).
Proof.
  intros H.
  destruct (runSimulation_observed_in_range _ _ _ _ _ _ _ _ H) as [Hsim Hk].
  unfold Batch.runSimulation in H. simpl in H.
  apply (forLoop_observed_markers n p simulations speed stopDuring simulations
           Hsim) in H;
    [| lia | lia | simpl; symmetry; apply Nat.Div0.div_0_l
     | apply Forall_nil; exact I].
  destruct H as [Hlen Hall]. change (1 + k) with (S k) in Hlen.
  split; [exact Hlen |]. split; [| exact Hall].
  rewrite Hlen. apply Nat.Div0.div_le_upper_bound.
  pose proof (ceilDiv_covers simulations 300 ltac:(lia)). lia.
Qed.

Lemma marker_buffer_counts_intervals_witness :
  exists ui : Batch.SimUi,
    Batch.observed (Batch.runSimulation 3 1 2 100 (fun _ => false)
                      (replicate 4 (mkSample 0 0))) !! 1 = Some ui /\
    length (Batch.animationData ui) = 2.
Proof.
  eexists. split; [reflexivity |].
  apply (marker_buffer_counts_intervals 3 1 2 100 (fun _ => false)
           (replicate 4 (mkSample 0 0)) 1).
  reflexivity.
Defined.

(** ** The two board generators *)

(** X19. With at least one door and fewer than 2^32, the board of a
    simulated trial is generated exactly like the board of the manual
    game: from the same random draws both loops place the prizes behind
    the same doors, consume the same number of draws, and one keeps running
    exactly when the other does. *)
Theorem simulator_board_matches_manual_board (n p : nat) (rs : list Sample) :
  0 < n -> (Z.of_nat n < Manual.arrayLengthLimit)%Z ->
  match Manual.setupDoors n p rs with
  | Returns (board, rest) =>
      Batch.buildBoard n p rs = Returns (map Manual.hasPrize board, rest)
  | Throws => False
  | Pending => Batch.buildBoard n p rs = Pending
  end.
Proof.
  intros Hn Hlim. rewrite (buildBoard_setupDoors n p rs Hn Hlim).
  pose proof (placePrizes_no_throw n p rs Hn (replicate n Manual.closedDoor) 0
                (length_replicate _ _)) as Hno.
  rewrite setupDoors_in_range by exact Hlim.
  destruct (Manual.placePrizes n p (replicate n Manual.closedDoor) 0 rs)
    as [[board rest] | |]; simpl; [reflexivity | contradiction | reflexivity].
Qed.

Lemma simulator_board_matches_manual_board_witness :
  Manual.setupDoors 4 2 [sampleFor 3 4; sampleFor 3 4; sampleFor 1 4]
  = Returns ([Manual.mkDoor false false false; Manual.mkDoor true false false;
              Manual.mkDoor false false false; Manual.mkDoor true false false],
             []) /\
  Batch.buildBoard 4 2 [sampleFor 3 4; sampleFor 3 4; sampleFor 1 4]
  = Returns ([false; true; false; true], []).
Proof.
  split; [reflexivity |].
  exact (simulator_board_matches_manual_board 4 2
           [sampleFor 3 4; sampleFor 3 4; sampleFor 1 4] ltac:(lia) eq_refl).
Defined.

(** ** The configuration form on the typed texts *)










